(** * composicao_estatisticas: exploratory-statistics helpers

    A shallow embedding of [src/composicao_estatisticas.py] and the
    properties its specification states about it.

    Conventions of the embedding.
    - Numbers are embedded twice.  In [Numeric] and [Stats] a sample is a
      list of rationals (every finite IEEE double is a rational) and the
      library routines are carried out exactly, as the real-number
      formulas they implement; results that leave the rationals (square
      roots, the F distribution function) live in [R].  In [Float64] a
      sample is a list of binary64 values and every operation is the
      machine's, with its rounding, overflow and NaN.  General statements
      are proved of the first embedding and say what the formulas give
      apart from rounding; what a call returns on given doubles is
      computed in the second.
    - In the exact embedding a value that is not a finite number (NaN, an
      infinity) is [None]; the two are not told apart, and nothing is
      proved about what the code does with an infinity.
    - [TesteF] states the F test over whatever finite variances the
      library returns, the rounded ones included.
    - Python objects are reached through references into a heap, so that
      in-place updates of an argument are visible to the caller.
    - Console output and plotting calls are recorded as a trace of events. *)

From Stdlib Require Import List String Bool Arith ZArith QArith Qround Qminmax.
From Stdlib Require Import Qreals Reals Lra Lia Sorted.
From Stdlib Require Lqa.
From Stdlib Require PrimFloat FloatOps Uint63.
Import ListNotations.

(** ** The distribution plot: [composicao_histograma_boxplot] *)

Module Plot.

Local Open Scope string_scope.

(** A Python exception, carried with its message ([str(e)]). *)
Inductive exn : Type :=
| Exception (msg : string).

Definition str (e : exn) : string :=
  match e with Exception msg => msg end.

(** The two axes of the figure: [ax1] (boxplot) and [ax2] (histogram). *)
Inductive axes : Type := ax1 | ax2.

(** The calls into matplotlib, seaborn and pandas made while the figure is
    built, in the order of the source. *)
Inductive plot_call : Type :=
| subplots
| sns_boxplot (coluna : string)
| sns_histplot (coluna intervalos : string)
| ax_grid (ax : axes)
| ax_set_axisbelow (ax : axes)
| ax_hide_spines (ax : axes)
| ax_set_xlabel (ax : axes)
| ax_set_ylabel (ax : axes)
| axvline_mean (coluna : string)
| axvline_median (coluna : string)
| axvline_mode (coluna : string)
| ax2_legend
| fig_suptitle (titulo : string).

(** What an observer of one call sees. *)
Inductive event : Type :=
| Print (line : string)
| Makedirs (path : string)
| Draw (c : plot_call)
| Savefig (path : string)
| Show.

(** The environment of a call: the working directory, the state of the
    file system as the three I/O primitives report it, and the outcome of
    each plotting call ([None]: the call succeeds, [Some e]: it raises). *)
Record world : Type := {
  getcwd : string;
  path_exists : string -> bool;
  makedirs : string -> option exn;
  plot : plot_call -> option exn;
  savefig : string -> option exn
}.

(** Outcome of a run: a value, or an exception that escapes. *)
Inductive result (A : Type) : Type :=
| Ok (a : A)
| Raise (e : exn).
Arguments Ok {A} a.
Arguments Raise {A} e.

(** Trace of events together with the outcome. *)
Definition M (A : Type) : Type := (list event * result A)%type.

Definition ret {A} (a : A) : M A := ([], Ok a).

Definition bind {A B} (m : M A) (k : A -> M B) : M B :=
  match m with
  | (t, Ok a) => let (t', r) := k a in ((t ++ t')%list, r)
  | (t, Raise e) => (t, Raise e)
  end.

Notation "x <- m ;; k" := (bind m (fun x => k))
  (at level 61, m at next level, right associativity).
Notation "m ;;; k" := (bind m (fun _ => k))
  (at level 61, right associativity).

Definition emit (ev : event) : M unit := ([ev], Ok tt).

(** A primitive that records [ev] and then succeeds or raises. *)
Definition attempt (ev : event) (o : option exn) : M unit :=
  match o with
  | None => ([ev], Ok tt)
  | Some e => ([ev], Raise e)
  end.

(** [try: body / except Exception as e: handler e]. *)
Definition try_except {A} (body : M A) (handler : exn -> M A) : M A :=
  match body with
  | (t, Ok a) => (t, Ok a)
  | (t, Raise e) => let (t', r) := handler e in ((t ++ t')%list, r)
  end.

Definition print (line : string) : M unit := emit (Print line).
Definition os_makedirs (w : world) (p : string) : M unit :=
  attempt (Makedirs p) (makedirs w p).
Definition plt_savefig (w : world) (p : string) : M unit :=
  attempt (Savefig p) (savefig w p).
Definition draw (w : world) (c : plot_call) : M unit :=
  attempt (Draw c) (plot w c).
Definition plt_show : M unit := emit Show.

(** [os.path.join] on two components (POSIX). *)
Definition ends_with_slash (a : string) : bool :=
  match String.length a with
  | O => false
  | S n => String.eqb (substring n 1 a) "/"
  end.

Definition os_path_join (a b : string) : string :=
  if prefix "/" b then b
  else if String.eqb a "" || ends_with_slash a then a ++ b
  else a ++ "/" ++ b.

(** Whether the body of the function goes on or has executed [return]. *)
Inductive flow : Type := Continue | Return.

(** Lines 59-64: the guarded creation of the images directory. *)
Definition criar_pasta (w : world) (pasta_imagens : string) : M flow :=
  try_except
    (os_makedirs w pasta_imagens ;;;
     print ("Pasta criada em: " ++ pasta_imagens) ;;;
     ret Continue)
    (fun e =>
       print ("Erro ao criar a pasta " ++ pasta_imagens ++ ": " ++ str e) ;;;
       ret Return).

(** Lines 89-95: the loop over the two axes. *)
Definition estilo_eixo (w : world) (ax : axes) : M unit :=
  draw w (ax_grid ax) ;;;
  draw w (ax_set_axisbelow ax) ;;;
  draw w (ax_hide_spines ax) ;;;
  draw w (ax_set_xlabel ax) ;;;
  draw w (ax_set_ylabel ax).

(** Lines 67-103: the construction of the figure. *)
Definition criar_graficos (w : world) (coluna intervalos titulo : string)
  : M unit :=
  draw w subplots ;;;
  draw w (sns_boxplot coluna) ;;;
  draw w (sns_histplot coluna intervalos) ;;;
  estilo_eixo w ax1 ;;;
  estilo_eixo w ax2 ;;;
  draw w (axvline_mean coluna) ;;;
  draw w (axvline_median coluna) ;;;
  draw w (axvline_mode coluna) ;;;
  draw w ax2_legend ;;;
  draw w (fig_suptitle titulo).

(** Lines 106-112: the guarded write of the image. *)
Definition salvar_grafico (w : world) (caminho_arquivo : string) : M unit :=
  try_except
    (plt_savefig w caminho_arquivo ;;;
     print ("Gráfico salvo em: " ++ caminho_arquivo))
    (fun e =>
       print ("Erro ao salvar o arquivo " ++ caminho_arquivo ++ ": " ++ str e)).

Definition composicao_histograma_boxplot (w : world)
    (coluna intervalos titulo nome_arquivo : string) (salvar : bool)
  : M unit :=
  let pasta_imagens := os_path_join (getcwd w) "images" in
  fl <- (if salvar then
           if negb (path_exists w pasta_imagens)
           then criar_pasta w pasta_imagens
           else ret Continue
         else ret Continue) ;;
  match fl with
  | Return => ret tt
  | Continue =>
      criar_graficos w coluna intervalos titulo ;;;
      (if salvar then
         salvar_grafico w (os_path_join pasta_imagens nome_arquivo)
       else ret tt) ;;;
      plt_show
  end.

(** The events of a figure built without an exception. *)
Definition figura (coluna intervalos titulo : string) : list event :=
  map Draw
    [subplots; sns_boxplot coluna; sns_histplot coluna intervalos;
     ax_grid ax1; ax_set_axisbelow ax1; ax_hide_spines ax1;
     ax_set_xlabel ax1; ax_set_ylabel ax1;
     ax_grid ax2; ax_set_axisbelow ax2; ax_hide_spines ax2;
     ax_set_xlabel ax2; ax_set_ylabel ax2;
     axvline_mean coluna; axvline_median coluna; axvline_mode coluna;
     ax2_legend; fig_suptitle titulo].

(** The behaviour the specification asks of a call that saves: the call
    returns normally and the figure is displayed. *)
Definition degrades_to_display_only (r : M unit) : Prop :=
  snd r = Ok tt /\ In Show (fst r).

(** A file system on which nothing can be written, and a plotting backend
    on which every call succeeds. *)
Definition unwritable : world := {|
  getcwd := "/ro";
  path_exists := fun _ => false;
  makedirs := fun _ => Some (Exception "[Errno 30] Read-only file system");
  plot := fun _ => None;
  savefig := fun _ => Some (Exception "[Errno 30] Read-only file system")
|}.

(** The images directory is there, the file cannot be written. *)
Definition dir_present_write_fails : world := {|
  getcwd := "/home/u";
  path_exists := fun _ => true;
  makedirs := fun _ => None;
  plot := fun _ => None;
  savefig := fun _ => Some (Exception "[Errno 13] Permission denied")
|}.

End Plot.


(** ** The numeric kernels of NumPy and SciPy the module calls

    These are library routines; each is written after the algorithm of
    the library, on a sample given as a list of rationals and in exact
    arithmetic: no result is rounded, overflows or underflows.  The same
    routines on doubles are in [Float64] below. *)

Module Numeric.

Local Open Scope Q_scope.

Definition sumQ (a : list Q) : Q := fold_right Qplus 0 a.

Definition sumR (l : list R) : R := fold_right Rplus 0%R l.

Definition lenQ (a : list Q) : Q := inject_Z (Z.of_nat (List.length a)).

(** Division: a zero divisor gives no finite number (on doubles NaN for
    0/0, an infinity otherwise), reported as [None]. *)
Definition div (x y : Q) : option Q :=
  if Qeq_bool y 0 then None else Some (x / y).

(** [np.mean]: the sum over the number of elements. *)
Definition mean (a : list Q) : option Q := div (sumQ a) (lenQ a).

(** Deviations from a centre raised to a power ([(a - mean)**k]). *)
Definition deviations (k : positive) (m : Q) (a : list Q) : list Q :=
  map (fun x => Qpower_positive (x - m) k) a.

(** [np.var(a, ddof)]: squared deviations from the mean, summed and divided
    by [max(n - ddof, 0)]. *)
Definition var (ddof : nat) (a : list Q) : option Q :=
  match mean a with
  | None => None
  | Some m =>
      div (sumQ (map (fun x => (x - m) * (x - m)) a))
          (inject_Z (Z.max (Z.of_nat (List.length a) - Z.of_nat ddof) 0))
  end.

(** [np.std(a, ddof)]: the square root of [np.var(a, ddof)]. *)
Definition std (ddof : nat) (a : list Q) : option R :=
  option_map (fun v => sqrt (Q2R v)) (var ddof a).

(** [scipy.stats.moment]: the k-th central moment, the mean of the
    deviations raised to k. *)
Definition moment (k : positive) (a : list Q) : option Q :=
  match mean a with
  | None => None
  | Some m => mean (deviations k m a)
  end.

(** [scipy.stats.skew] (biased): [m3 / m2**1.5]. *)
Definition skewness (a : list Q) : option R :=
  match moment 2 a, moment 3 a with
  | Some m2, Some m3 =>
      if Qeq_bool m2 0 then None
      else Some (Q2R m3 / (Q2R m2 * sqrt (Q2R m2)))%R
  | _, _ => None
  end.

(** [scipy.stats.kurtosis(a, fisher)] (biased): [m4 / m2**2], and 3 less
    under Fisher's definition. *)
Definition kurt (fisher : bool) (a : list Q) : option Q :=
  match moment 2 a, moment 4 a with
  | Some m2, Some m4 =>
      match div m4 (m2 * m2) with
      | Some vals => Some (if fisher then vals - 3 else vals)
      | None => None
      end
  | _, _ => None
  end.

(** Sorting in ascending order. *)
Fixpoint insert (x : Q) (l : list Q) : list Q :=
  match l with
  | [] => [x]
  | y :: t => if Qle_bool x y then x :: y :: t else y :: insert x t
  end.

Fixpoint sort (a : list Q) : list Q :=
  match a with
  | [] => []
  | x :: t => insert x (sort t)
  end.

(** [l[i:j]]. *)
Definition slice (i j : nat) (l : list Q) : list Q :=
  firstn (j - i) (skipn i l).

(** [np.median]: the mean of the middle element, or of the two middle
    elements, of the sorted sample. *)
Definition median (a : list Q) : option Q :=
  let part := sort a in
  let n := List.length part in
  let index := (n / 2)%nat in
  if Nat.odd n then mean (slice index (index + 1) part)
  else mean (slice (index - 1) (index + 1) part).

(** Linear interpolation as NumPy's [_lerp] computes it: from the left end
    when [t < 0.5], from the right end otherwise. *)
Definition lerp (a b t : Q) : Q :=
  if Qle_bool (1 # 2) t then b - (b - a) * (1 - t)
  else a + (b - a) * t.

(** [np.percentile(a, p)] with the default (linear) method: the virtual
    index is [(n - 1) * p / 100]; at or beyond the last position both
    neighbours are the last element (index -1).  A percentage outside
    [0, 100] is refused by NumPy (ValueError) and an empty sample gives
    NaN; both are [None] here. *)
Definition percentile (a : list Q) (p : Q) : option Q :=
  let q := p / 100 in
  let arr := sort a in
  let n := List.length arr in
  if negb (Qle_bool 0 q && Qle_bool q 1) then None
  else if Nat.eqb n 0 then None
  else
    let last := (Z.of_nat n - 1)%Z in
    let virtual_index := inject_Z last * q in
    let above := Qle_bool (inject_Z last) virtual_index in
    let previous_index := if above then last else Qfloor virtual_index in
    let next_index := if above then last else (Qfloor virtual_index + 1)%Z in
    let gamma :=
      virtual_index - inject_Z (if above then (-1)%Z else Qfloor virtual_index) in
    Some (lerp (nth (Z.to_nat previous_index) arr 0)
               (nth (Z.to_nat next_index) arr 0) gamma).

(** [np.unique(a, return_counts=True)] on the sorted sample: each distinct
    value (the first of its run) with the length of its run. *)
Fixpoint run_lengths (l : list Q) : list (Q * nat) :=
  match l with
  | [] => []
  | x :: t =>
      match run_lengths t with
      | (y, c) :: r =>
          if Qeq_bool x y then (x, S c) :: r else (x, 1%nat) :: (y, c) :: r
      | [] => [(x, 1%nat)]
      end
  end.

Definition unique_counts (a : list Q) : list (Q * nat) :=
  run_lengths (sort a).

(** [cnts.argmax()]: the first entry with the largest count. *)
Fixpoint argmax (best : Q * nat) (l : list (Q * nat)) : Q * nat :=
  match l with
  | [] => best
  | vc :: t => if (snd best <? snd vc)%nat then argmax vc t else argmax best t
  end.

(** [scipy.stats.mode(a, keepdims=True).mode]: an array holding the value
    with the largest count, empty for an empty sample. *)
Definition mode_array (a : list Q) : list Q :=
  match unique_counts a with
  | [] => []
  | vc :: t => [fst (argmax vc t)]
  end.

(** Occurrences of a value in a sample. *)
Definition count (x : Q) (a : list Q) : nat :=
  List.length (filter (Qeq_bool x) a).

End Numeric.


(** ** The statistics module: [calcular_estatisticas], [teste_f_variancias] *)

Module Stats.

Import Numeric.
Local Open Scope Q_scope.

(** A reference to a Python object holding a sample (a list or an array). *)
Definition ref : Type := nat.

(** What one call of [print] writes to the console: a text, which may
    hold line feeds and so span several lines of the console, or a
    labelled number.  Numbers are kept as values: their rendering
    ([:.5f], [:.2f]) is not modelled. *)
Inductive line : Type :=
| Text (s : string)
| Variancia_de (nome : string) (v : option Q)
| Estatistica_F (F : option Q)
| Graus_de_liberdade (df1 df2 : Z)
| P_valor_bicaudal (p : option R).

(** The state a call runs in: the objects of the heap and the console. *)
Record state : Type := {
  mem : ref -> list Q;
  stdout : list line
}.

Definition St (A : Type) : Type := state -> A * state.

Definition ret {A} (a : A) : St A := fun s => (a, s).

Definition bind {A B} (m : St A) (k : A -> St B) : St B :=
  fun s => let (a, s') := m s in k a s'.

Notation "x <- m ;; k" := (bind m (fun x => k))
  (at level 61, m at next level, right associativity).
Notation "m ;;; k" := (bind m (fun _ => k))
  (at level 61, right associativity).

Definition load (r : ref) : St (list Q) := fun s => (mem s r, s).

Definition store (r : ref) (a : list Q) : St unit :=
  fun s =>
    (tt, {| mem := fun r' => if Nat.eqb r' r then a else mem s r';
            stdout := stdout s |}).

Definition print (l : line) : St unit :=
  fun s => (tt, {| mem := mem s; stdout := stdout s ++ [l] |}).

(** [len(a)]. *)
Definition len (r : ref) : St Z :=
  a <- load r ;; ret (Z.of_nat (List.length a)).

(** The library calls, on references.  [np.median] and [np.percentile]
    reorder their argument in place when [overwrite_input] is set, and
    work on a copy otherwise; the other routines only read. *)
Definition np_mean (r : ref) : St (option Q) :=
  a <- load r ;; ret (mean a).

Definition np_var (r : ref) (ddof : nat) : St (option Q) :=
  a <- load r ;; ret (var ddof a).

Definition np_std (r : ref) (ddof : nat) : St (option R) :=
  a <- load r ;; ret (std ddof a).

Definition np_median (r : ref) (overwrite_input : bool) : St (option Q) :=
  a <- load r ;;
  (if overwrite_input then store r (sort a) else ret tt) ;;;
  ret (median a).

Definition np_percentile (r : ref) (q : Q) (overwrite_input : bool)
  : St (option Q) :=
  a <- load r ;;
  (if overwrite_input then store r (sort a) else ret tt) ;;;
  ret (percentile a q).

Definition mode (r : ref) : St (list Q) :=
  a <- load r ;; ret (mode_array a).

Definition skew (r : ref) : St (option R) :=
  a <- load r ;; ret (skewness a).

Definition kurtosis (r : ref) (fisher : bool) : St (option Q) :=
  a <- load r ;; ret (kurt fisher a).

(** The dictionary [calcular_estatisticas] returns, one field per key:
    'Média', 'Mediana', 'Moda', 'Variância', 'Desvio Padrão', 'Assimetria',
    'Curtose', '1º Quartil', '2º Quartil (Mediana)', '3º Quartil'.
    [None] is NaN. *)
Record estatisticas : Type := {
  Media : option Q;
  Mediana : option Q;
  Moda : option Q;
  Variancia : option Q;
  Desvio_Padrao : option R;
  Assimetria : option R;
  Curtose : option Q;
  Quartil_1 : option Q;
  Quartil_2_Mediana : option Q;
  Quartil_3 : option Q
}.

(** [moda_result.mode[0] if len(moda_result.mode) > 0 else np.nan]. *)
Definition primeira_moda (moda_result : list Q) : option Q :=
  if (0 <? List.length moda_result)%nat then nth_error moda_result 0
  else None.

Definition calcular_estatisticas (amostra : ref) : St estatisticas :=
  moda_result <- mode amostra ;;
  media <- np_mean amostra ;;
  mediana <- np_median amostra false ;;
  variancia <- np_var amostra 1 ;;
  desvio <- np_std amostra 1 ;;
  assimetria <- skew amostra ;;
  curtose <- kurtosis amostra false ;;
  q1 <- np_percentile amostra 25 false ;;
  q2 <- np_percentile amostra 50 false ;;
  q3 <- np_percentile amostra 75 false ;;
  ret {| Media := media;
         Mediana := mediana;
         Moda := primeira_moda moda_result;
         Variancia := variancia;
         Desvio_Padrao := desvio;
         Assimetria := assimetria;
         Curtose := curtose;
         Quartil_1 := q1;
         Quartil_2_Mediana := q2;
         Quartil_3 := q3 |}.

(** Comparison and division of two variances, either of which may be NaN:
    a comparison with NaN is false, an operation on NaN gives NaN.  The
    quotient by a zero variance is [None] as well: on doubles it is an
    infinity when the numerator is positive, which this embedding does not
    follow (the properties of F below are stated for positive
    variances). *)
Definition gt (x y : option Q) : bool :=
  match x, y with
  | Some a, Some b => negb (Qle_bool a b)
  | _, _ => false
  end.

Definition quociente (x y : option Q) : option Q :=
  match x, y with
  | Some a, Some b => div a b
  | _, _ => None
  end.

(** The quantities of the test (the VarianceTestResult of the
    specification). *)
Record resultado_f : Type := {
  var1 : option Q;
  var2 : option Q;
  F : option Q;
  df1 : Z;
  df2 : Z;
  p_value_one_tailed : option R;
  p_value_two_tailed : option R
}.

(** The line feed of the multi-line hypotheses block. *)
Definition nl : string := String (Ascii.ascii_of_nat 10) EmptyString.

Definition rule (c : string) : line :=
  Text (String.concat "" (repeat c 50)).

(** Lines 188-201.  [f_cdf] stands for [scipy.stats.f.cdf]. *)
Definition calculo_f (f_cdf : R -> Z -> Z -> R) (amostra1 amostra2 : ref)
  : St resultado_f :=
  v1 <- np_var amostra1 1 ;;
  v2 <- np_var amostra2 1 ;;
  n1 <- len amostra1 ;;
  n2 <- len amostra2 ;;
  let '(f, d1, d2) :=
    if gt v1 v2 then (quociente v1 v2, (n1 - 1)%Z, (n2 - 1)%Z)
    else (quociente v2 v1, (n2 - 1)%Z, (n1 - 1)%Z) in
  let p_one := option_map (fun x => (1 - f_cdf (Q2R x) d1 d2)%R) f in
  let p_two := option_map (fun p => (2 * Rmin p (1 - p))%R) p_one in
  ret {| var1 := v1; var2 := v2; F := f; df1 := d1; df2 := d2;
         p_value_one_tailed := p_one; p_value_two_tailed := p_two |}.

(** [p_value_two_tailed < alpha]; false on NaN. *)
Definition rejeita (p : option R) (alpha : Q) : bool :=
  match p with
  | Some x => if Rlt_dec x (Q2R alpha) then true else false
  | None => false
  end.

Definition teste_f_variancias (f_cdf : R -> Z -> Z -> R)
    (amostra1 amostra2 : ref) (nome1 nome2 : string) (alpha : Q)
  : St (option R) :=
  print (rule "=") ;;;
  print (Text (" TESTE F PARA IGUALDADE DE VARIÂNCIAS (" ++ nome1 ++ " vs. "
               ++ nome2 ++ ") ")) ;;;
  print (rule "=") ;;;
  print (Text (nl ++ "    H0: As variâncias de " ++ nome1 ++ " e " ++ nome2
               ++ " são iguais." ++ nl
               ++ "    H1: As variâncias de " ++ nome1 ++ " e " ++ nome2
               ++ " são diferentes." ++ nl ++ "    ")) ;;;
  t <- calculo_f f_cdf amostra1 amostra2 ;;
  print (rule "=") ;;;
  print (Text " RESULTADOS DO TESTE F ") ;;;
  print (rule "=") ;;;
  print (Variancia_de nome1 (var1 t)) ;;;
  print (Variancia_de nome2 (var2 t)) ;;;
  print (Estatistica_F (F t)) ;;;
  print (Graus_de_liberdade (df1 t) (df2 t)) ;;;
  print (rule "-") ;;;
  print (P_valor_bicaudal (p_value_two_tailed t)) ;;;
  print (rule "-") ;;;
  (if rejeita (p_value_two_tailed t) alpha then
     print (Text "Decisão: Rejeitamos H0 → As variâncias são significativamente diferentes.")
   else
     print (Text "Decisão: Não rejeitamos H0 → As variâncias são estatisticamente iguais.")) ;;;
  print (rule "=") ;;;
  ret (p_value_two_tailed t).

(** A heap with two samples, at references 0 and 1, and nothing printed. *)
Definition duas_amostras (a b : list Q) : state :=
  {| mem := fun r => match r with O => a | 1%nat => b | _ => [] end;
     stdout := [] |}.

(** Two samples of equal variance (1) and different sizes. *)
Definition exemplo : state := duas_amostras [1; 2; 3] [2; 0; 0; 0].

(** The fourth standardized moment of a sample in the words of the
    specification, written out on the reals from the elements alone:
    with [mu] the arithmetic mean and [sigma] the square root of the mean
    squared deviation from [mu], it is the mean of the fourth powers of
    the standardized values [(x - mu) / sigma].  Undefined on an empty
    sample and when [sigma] is zero. *)
Definition fourth_standardized_moment (a : list Q) : option R :=
  let n := INR (List.length a) in
  let mu := (sumR (map Q2R a) / n)%R in
  let sigma := sqrt (sumR (map (fun x => ((Q2R x - mu) ^ 2)%R) a) / n) in
  match a with
  | [] => None
  | _ :: _ =>
      if Req_EM_T sigma 0 then None
      else Some (sumR (map (fun x => (((Q2R x - mu) / sigma) ^ 4)%R) a) / n)%R
  end.

(** A distribution function with the range and the reciprocal symmetry of
    the F distribution; at (2, 2) degrees of freedom it is the distribution
    function of F itself, [x / (1 + x)]. *)
Definition cdf_racional (x : R) (dfn dfd : Z) : R :=
  if Rle_dec x 0 then 0%R
  else (IZR dfn * x / (IZR dfn * x + IZR dfd))%R.

End Stats.


(** ** The F test over the variances the library returns

    Lines 177-223 once more, with the variance routine left open in the
    way [scipy.stats.f.cdf] is: [np_var_ddof1] stands for
    [np.var(., ddof=1)] as NumPy computes it on doubles, with the result
    when it is a finite number (every finite double is a rational) and
    [None] when it is NaN or an infinity.  What is proved of these
    definitions holds for whatever finite values the routine returns, the
    rounded ones of the library included; [Stats.teste_f_variancias] is
    the instance at the exact variance. *)

Module TesteF.

Import Numeric Stats.
Local Open Scope Q_scope.

Section Biblioteca.

Variable np_var_ddof1 : list Q -> option Q.
Variable f_cdf : R -> Z -> Z -> R.

Definition np_var (r : ref) : St (option Q) :=
  a <- load r ;; ret (np_var_ddof1 a).

(** Lines 188-201. *)
Definition calculo_f (amostra1 amostra2 : ref) : St resultado_f :=
  v1 <- np_var amostra1 ;;
  v2 <- np_var amostra2 ;;
  n1 <- len amostra1 ;;
  n2 <- len amostra2 ;;
  let '(f, d1, d2) :=
    if gt v1 v2 then (quociente v1 v2, (n1 - 1)%Z, (n2 - 1)%Z)
    else (quociente v2 v1, (n2 - 1)%Z, (n1 - 1)%Z) in
  let p_one := option_map (fun x => (1 - f_cdf (Q2R x) d1 d2)%R) f in
  let p_two := option_map (fun p => (2 * Rmin p (1 - p))%R) p_one in
  ret {| var1 := v1; var2 := v2; F := f; df1 := d1; df2 := d2;
         p_value_one_tailed := p_one; p_value_two_tailed := p_two |}.

Definition teste_f_variancias (amostra1 amostra2 : ref)
    (nome1 nome2 : string) (alpha : Q) : St (option R) :=
  print (rule "=") ;;;
  print (Text (" TESTE F PARA IGUALDADE DE VARIÂNCIAS (" ++ nome1 ++ " vs. "
               ++ nome2 ++ ") ")) ;;;
  print (rule "=") ;;;
  print (Text (nl ++ "    H0: As variâncias de " ++ nome1 ++ " e " ++ nome2
               ++ " são iguais." ++ nl
               ++ "    H1: As variâncias de " ++ nome1 ++ " e " ++ nome2
               ++ " são diferentes." ++ nl ++ "    ")) ;;;
  t <- calculo_f amostra1 amostra2 ;;
  print (rule "=") ;;;
  print (Text " RESULTADOS DO TESTE F ") ;;;
  print (rule "=") ;;;
  print (Variancia_de nome1 (var1 t)) ;;;
  print (Variancia_de nome2 (var2 t)) ;;;
  print (Estatistica_F (F t)) ;;;
  print (Graus_de_liberdade (df1 t) (df2 t)) ;;;
  print (rule "-") ;;;
  print (P_valor_bicaudal (p_value_two_tailed t)) ;;;
  print (rule "-") ;;;
  (if rejeita (p_value_two_tailed t) alpha then
     print (Text "Decisão: Rejeitamos H0 → As variâncias são significativamente diferentes.")
   else
     print (Text "Decisão: Não rejeitamos H0 → As variâncias são estatisticamente iguais.")) ;;;
  print (rule "=") ;;;
  ret (p_value_two_tailed t).

End Biblioteca.

End TesteF.


(** ** The numeric routines on IEEE doubles

    The NumPy routines behind [calcular_estatisticas] and
    [teste_f_variancias] once more, this time on binary64 values with the
    rounding, the overflow and the NaN of the machine: every operation is
    the primitive operation on doubles, in the order in which the library
    performs it.  These definitions compute; they show what a call returns
    on a given sample of doubles. *)

Module Float64.

Import PrimFloat FloatOps SpecFloat.
Local Open Scope float_scope.

(** The double nearest to an integer (a length, a count). *)
Definition of_Z (z : Z) : float :=
  if (z <? 0)%Z then - of_uint63 (Uint63.of_Z (- z))
  else of_uint63 (Uint63.of_Z z).

Definition of_nat (n : nat) : float := of_Z (Z.of_nat n).

(** [np.floor(x).astype(np.intp)] on a finite double. *)
Definition floor (x : float) : Z :=
  match Prim2SF x with
  | S754_finite s m e =>
      let v := if s then Z.neg m else Z.pos m in
      if (0 <=? e)%Z then (v * 2 ^ e)%Z else (v / 2 ^ (- e))%Z
  | _ => 0%Z
  end.

(** A plain accumulation loop, [for x in l: res += x]. *)
Definition loop (res : float) (l : list float) : float := fold_left add l res.

(** The eight accumulators of the unrolled loop: each further block of
    eight elements is added lane by lane. *)
Fixpoint lanes (blocks : nat) (r l : list float) : list float * list float :=
  match blocks with
  | O => (r, l)
  | S b =>
      lanes b (map (fun xy => fst xy + snd xy) (combine r (firstn 8 l)))
            (skipn 8 l)
  end.

Definition unrolled (l : list float) : float :=
  let n := List.length l in
  let '(r, rest) := lanes (n / 8 - 1) (firstn 8 l) (skipn 8 l) in
  let r_ (i : nat) := nth i r 0 in
  loop (((r_ 0%nat + r_ 1%nat) + (r_ 2%nat + r_ 3%nat))
        + ((r_ 4%nat + r_ 5%nat) + (r_ 6%nat + r_ 7%nat))) rest.

(** NumPy's pairwise summation: a plain loop below eight elements, the
    unrolled loop up to a block of 128, and beyond that the sum of the two
    halves, the first a multiple of eight long. *)
Fixpoint pairwise_sum (fuel : nat) (l : list float) : float :=
  let n := List.length l in
  if (n <? 8)%nat then loop (-0) l
  else if (n <=? 128)%nat then unrolled l
  else
    match fuel with
    | O => unrolled l
    | S fuel' =>
        let n2 := (n / 2 - (n / 2) mod 8)%nat in
        pairwise_sum fuel' (firstn n2 l) + pairwise_sum fuel' (skipn n2 l)
    end.

(** [np.add.reduce] on a one-dimensional array of doubles: zero on an
    empty array, the pairwise sum otherwise.  (The sum starts from
    negative zero, which changes no sum but that of negative zeros
    alone.) *)
Definition add_reduce (l : list float) : float :=
  match l with
  | [] => 0
  | _ => pairwise_sum (List.length l) l
  end.

(** [np.mean]. *)
Definition np_mean (a : list float) : float :=
  add_reduce a / of_nat (List.length a).

(** [np.var(a, ddof)]: the mean, the deviations from it, their squares,
    the sum of the squares, the division by [max(n - ddof, 0)]. *)
Definition np_var (a : list float) (ddof : nat) : float :=
  let arrmean := add_reduce a / of_nat (List.length a) in
  let x := map (fun v => v - arrmean) a in
  let x := map (fun d => d * d) x in
  add_reduce x / of_Z (Z.max (Z.of_nat (List.length a) - Z.of_nat ddof) 0).

(** [np.std(a, ddof)]. *)
Definition np_std (a : list float) (ddof : nat) : float :=
  sqrt (np_var a ddof).

(** The order NumPy sorts doubles by: NaN after every number. *)
Definition lt (a b : float) : bool :=
  (a <? b) || (is_nan b && negb (is_nan a)).

Fixpoint insert (x : float) (l : list float) : list float :=
  match l with
  | [] => [x]
  | y :: t => if lt x y then x :: y :: t else y :: insert x t
  end.

Fixpoint sort (a : list float) : list float :=
  match a with
  | [] => []
  | x :: t => insert x (sort t)
  end.

Definition slice (i j : nat) (l : list float) : list float :=
  firstn (j - i) (skipn i l).

(** [np.median]: the mean of the middle element or of the two middle
    elements of the sorted sample, NaN when the sample holds a NaN. *)
Definition np_median (a : list float) : float :=
  let part := sort a in
  let n := List.length part in
  let index := (n / 2)%nat in
  let rout :=
    if Nat.odd n then np_mean (slice index (index + 1) part)
    else np_mean (slice (index - 1) (index + 1) part) in
  if is_nan (last part 0) then nan else rout.

(** NumPy's [_lerp]. *)
Definition _lerp (a b t : float) : float :=
  let diff_b_a := b - a in
  if 0.5 <=? t then b - diff_b_a * (1 - t) else a + diff_b_a * t.

(** NumPy's [_quantile] with the linear method, for a fraction [q] in
    [0, 1]: the virtual index [(n - 1) * q], its two neighbours (both the
    last element at or beyond the last position) and their interpolation. *)
Definition _quantile (a : list float) (q : float) : float :=
  let arr := sort a in
  let n := List.length arr in
  if Nat.eqb n 0 then nan
  else
    let virtual_index := of_Z (Z.of_nat n - 1) * q in
    let above := of_Z (Z.of_nat n - 1) <=? virtual_index in
    let previous := if above then last arr nan
                    else nth (Z.to_nat (floor virtual_index)) arr nan in
    let next := if above then last arr nan
                else nth (Z.to_nat (floor virtual_index + 1)) arr nan in
    let gamma := virtual_index
                 - (if above then of_Z (-1) else of_Z (floor virtual_index)) in
    if is_nan (last arr 0) then nan else _lerp previous next gamma.

(** [np.percentile(a, p)]; [None] is the ValueError of a percentage
    outside [0, 100]. *)
Definition np_percentile (a : list float) (p : float) : option float :=
  let q := p / 100 in
  if (0 <=? q) && (q <=? 1) then Some (_quantile a q) else None.

(** The entries of the dictionary of [calcular_estatisticas] that NumPy
    alone computes (lines 163-164, 166-167 and 170-172); the mode, the
    skewness and the kurtosis are SciPy's and are not replayed here. *)
Record estatisticas : Type := {
  Media : float;
  Mediana : float;
  Variancia : float;
  Desvio_Padrao : float;
  Quartil_1 : float;
  Quartil_2_Mediana : float;
  Quartil_3 : float
}.

Definition calcular_estatisticas (amostra : list float)
  : option estatisticas :=
  match np_percentile amostra 25, np_percentile amostra 50,
        np_percentile amostra 75 with
  | Some q1, Some q2, Some q3 =>
      Some {| Media := np_mean amostra;
              Mediana := np_median amostra;
              Variancia := np_var amostra 1;
              Desvio_Padrao := np_std amostra 1;
              Quartil_1 := q1;
              Quartil_2_Mediana := q2;
              Quartil_3 := q3 |}
  | _, _, _ => None
  end.

(** The quantities of the F test on doubles. *)
Record resultado_f : Type := {
  var1 : float;
  var2 : float;
  F : float;
  df1 : Z;
  df2 : Z;
  p_value_one_tailed : float;
  p_value_two_tailed : float
}.

(** The builtin [min] of two numbers: the second when it is below the
    first, the first otherwise (also when one of them is NaN). *)
Definition py_min (a b : float) : float := if b <? a then b else a.

(** Lines 188-201.  [f_cdf] stands for [scipy.stats.f.cdf]. *)
Definition calculo_f (f_cdf : float -> Z -> Z -> float)
    (amostra1 amostra2 : list float) : resultado_f :=
  let var1 := np_var amostra1 1 in
  let var2 := np_var amostra2 1 in
  let n1 := Z.of_nat (List.length amostra1) in
  let n2 := Z.of_nat (List.length amostra2) in
  let '(F, df1, df2) :=
    if var2 <? var1 then (var1 / var2, (n1 - 1)%Z, (n2 - 1)%Z)
    else (var2 / var1, (n2 - 1)%Z, (n1 - 1)%Z) in
  let p_value_one_tailed := 1 - f_cdf F df1 df2 in
  let p_value_two_tailed :=
    2 * py_min p_value_one_tailed (1 - p_value_one_tailed) in
  {| var1 := var1; var2 := var2; F := F; df1 := df1; df2 := df2;
     p_value_one_tailed := p_value_one_tailed;
     p_value_two_tailed := p_value_two_tailed |}.

(** The value [teste_f_variancias] returns (line 223); the report is not
    replayed. *)
Definition teste_f_variancias (f_cdf : float -> Z -> Z -> float)
    (amostra1 amostra2 : list float) : float :=
  p_value_two_tailed (calculo_f f_cdf amostra1 amostra2).

(** A distribution function on doubles, the one of the F distribution at
    (2, 2) degrees of freedom.  As every computation on doubles does, and
    as [scipy.stats.f.cdf] does, it returns NaN at NaN. *)
Definition cdf_dupla (x : float) (dfn dfd : Z) : float :=
  if x <=? 0 then 0
  else if x =? infinity then 1
  else of_Z dfn * x / (of_Z dfn * x + of_Z dfd).

End Float64.


(** ** The residual plot: [grafico_residuos] *)

Module Residuos.

Import Plot(exn, Exception, result, Ok, Raise).
Local Open Scope Q_scope.

(** The calls into matplotlib and seaborn, with the arguments the
    properties below speak about. *)
Inductive call : Type :=
| plt_figure (largura altura : Z)
| sns_scatterplot (x : list nat) (y : list Q)
| ax_set_ylim (ymin ymax : Q)
| ax_axhline (y : Q)
| ax_set_title (s : string)
| ax_set_xlabel (s : string)
| ax_set_ylabel (s : string)
| plt_tight_layout
| plt_show.

(** The calls made, in order, together with the outcome. *)
Definition M (A : Type) : Type := (list call * result A)%type.

Definition ret {A} (a : A) : M A := ([], Ok a).

Definition raise {A} (e : exn) : M A := ([], Raise e).

Definition bind {A B} (m : M A) (k : A -> M B) : M B :=
  match m with
  | (t, Ok a) => let (t', r) := k a in ((t ++ t')%list, r)
  | (t, Raise e) => (t, Raise e)
  end.

Notation "x <- m ;; k" := (bind m (fun x => k))
  (at level 61, m at next level, right associativity).
Notation "m ;;; k" := (bind m (fun _ => k))
  (at level 61, right associativity).

(** A call into the plotting backend: recorded, then it succeeds or
    raises as the backend decides. *)
Definition invoke (backend : call -> option exn) (c : call) : M unit :=
  match backend c with
  | None => ([c], Ok tt)
  | Some e => ([c], Raise e)
  end.

(** The builtin [min] on an iterable: the first element, replaced by each
    later element that is strictly smaller; ValueError on no element. *)
Fixpoint least (m : Q) (l : list Q) : Q :=
  match l with
  | [] => m
  | x :: t => least (if Qle_bool m x then m else x) t
  end.

Definition py_min (l : list Q) : M Q :=
  match l with
  | [] => raise (Exception "min() arg is an empty sequence")
  | x :: t => ret (least x t)
  end.

(** The builtin [max] on an iterable: the first element, replaced by each
    later element that is strictly larger. *)
Fixpoint greatest (m : Q) (l : list Q) : Q :=
  match l with
  | [] => m
  | x :: t => greatest (if Qle_bool x m then m else x) t
  end.

Definition py_max (l : list Q) : M Q :=
  match l with
  | [] => raise (Exception "max() arg is an empty sequence")
  | x :: t => ret (greatest x t)
  end.

(** [min(a, b)] and [max(a, b)]. *)
Definition min2 (a b : Q) : Q := least a [b].
Definition max2 (a b : Q) : Q := greatest a [b].

(** [resid_pearson] is the attribute read from the fitted model; the
    literal 1.1 is the rational 11/10. *)
Definition grafico_residuos (backend : call -> option exn)
    (resid_pearson : list Q) : M unit :=
  let residuos := resid_pearson in
  let indices := seq 0 (List.length residuos) in
  invoke backend (plt_figure 8 4) ;;;
  invoke backend (sns_scatterplot indices residuos) ;;;
  lo <- py_min residuos ;;
  let ymin := min2 lo (-3) * (11 # 10) in
  hi <- py_max residuos ;;
  let ymax := max2 hi 3 * (11 # 10) in
  invoke backend (ax_set_ylim ymin ymax) ;;;
  invoke backend (ax_axhline 0) ;;;
  invoke backend (ax_axhline 2) ;;;
  invoke backend (ax_axhline (-2)) ;;;
  invoke backend (ax_set_title "Gráfico de Resíduos Padronizados") ;;;
  invoke backend (ax_set_xlabel "Observações") ;;;
  invoke backend (ax_set_ylabel "Resíduos Padronizados") ;;;
  invoke backend plt_tight_layout ;;;
  invoke backend plt_show.

(** A backend on which every call succeeds. *)
Definition backend_ok : call -> option exn := fun _ => None.

End Residuos.

(** ** Auxiliary notions for the properties of the plot *)

Module PlotAux.

Import Plot.
Local Open Scope string_scope.

(** Events that are plotting calls. *)
Definition eh_desenho (ev : event) : bool :=
  match ev with
  | Draw _ => true
  | _ => false
  end.


(** Everything succeeds; the images directory is absent. *)
Definition tudo_ok : world := {|
  getcwd := "/home/u";
  path_exists := fun _ => false;
  makedirs := fun _ => None;
  plot := fun _ => None;
  savefig := fun _ => None
|}.

End PlotAux.

(** ** Auxiliary notions for the properties of the F test *)

Module StatsAux.

Import Numeric Stats.
Local Open Scope string_scope.

(** The two decision lines of the report (lines 217 and 219). *)
Definition decisao_rejeita : line :=
  Text "Decisão: Rejeitamos H0 → As variâncias são significativamente diferentes.".

Definition decisao_nao_rejeita : line :=
  Text "Decisão: Não rejeitamos H0 → As variâncias são estatisticamente iguais.".

(** A sample of a single element next to a sample of three. *)
Definition amostra_curta : state := duas_amostras [7] [1; 2; 3].

End StatsAux.

(** * Properties *)

(** ** The distribution plot *)

Module PlotFacts.

Import Plot.
Local Open Scope string_scope.

Lemma draw_ok w c : plot w c = None -> draw w c = ([Draw c], Ok tt).
Proof. intros H. unfold draw, attempt. now rewrite H. Qed.

Lemma criar_graficos_ok w coluna intervalos titulo :
  (forall c, plot w c = None) ->
  criar_graficos w coluna intervalos titulo
  = (figura coluna intervalos titulo, Ok tt).
Proof.
  intros H. unfold criar_graficos, estilo_eixo.
  repeat rewrite (draw_ok _ _ (H _)). reflexivity.
Qed.

(** The write of the image never lets an exception escape, and a failed
    write is reported on the console. *)
Lemma salvar_grafico_caught w caminho :
  snd (salvar_grafico w caminho) = Ok tt /\
  forall e, savefig w caminho = Some e ->
    fst (salvar_grafico w caminho)
    = [Savefig caminho;
       Print ("Erro ao salvar o arquivo " ++ caminho ++ ": " ++ str e)].
Proof.
  unfold salvar_grafico, plt_savefig, attempt.
  destruct (savefig w caminho) as [e|]; simpl; split; trivial.
  - intros e' [= <-]. reflexivity.
  - discriminate.
Qed.

(** After a figure built without an exception, the rest of the function
    displays it and returns. *)
Lemma continua_ok w coluna intervalos titulo caminho (salvar : bool) :
  (forall c, plot w c = None) ->
  let r := criar_graficos w coluna intervalos titulo ;;;
           (if salvar then salvar_grafico w caminho else ret tt) ;;;
           plt_show in
  snd r = Ok tt /\ In Show (fst r) /\
  (salvar = true -> forall e, savefig w caminho = Some e ->
     In (Print ("Erro ao salvar o arquivo " ++ caminho ++ ": " ++ str e))
        (fst r)).
Proof.
  intros H r. subst r. rewrite (criar_graficos_ok _ _ _ _ H).
  destruct salvar.
  - destruct (salvar_grafico_caught w caminho) as [Hs Hl].
    destruct (salvar_grafico w caminho) as [t o] eqn:E. simpl in Hs, Hl.
    subst o. cbn. repeat split.
    + do 18 right. apply in_or_app. right. now left.
    + intros _ e He. do 18 right. apply in_or_app. left.
      rewrite (Hl e He). right. now left.
  - cbn. repeat split.
    + do 18 right. now left.
    + discriminate.
Qed.

(** C1, as stated, fails: on a file system where the images directory is
    absent and cannot be created, a call with saving enabled prints the
    error and returns at once; no figure is built and none is displayed. *)
Lemma C1_counterexample_no_display :
  let r := composicao_histograma_boxplot unwritable
             "salario" "auto" "Distribuicao" "distribuicao.png" true in
  makedirs unwritable (os_path_join (getcwd unwritable) "images") <> None /\
  fst r = [Makedirs "/ro/images";
           Print "Erro ao criar a pasta /ro/images: [Errno 30] Read-only file system"] /\
  ~ degrades_to_display_only r.
Proof.
  split; [discriminate|]. split; [reflexivity|].
  intros [_ H]. vm_compute in H.
  destruct H as [H|[H|[]]]; discriminate.
Qed.

(** C1 (amended): for every call with saving enabled whose plotting calls
    do not raise, no exception escapes, whatever the file system does.
    When the images directory is absent and its creation fails, the
    failure is printed and the function returns without building or
    displaying the figure.  In every other case the figure is displayed,
    and a failure of the file write is printed before that. *)
Theorem C1_io_failures_caught (w : world)
    (coluna intervalos titulo nome_arquivo : string) :
  (forall c, plot w c = None) ->
  let pasta := os_path_join (getcwd w) "images" in
  let caminho := os_path_join pasta nome_arquivo in
  let r := composicao_histograma_boxplot w coluna intervalos titulo
             nome_arquivo true in
  snd r = Ok tt /\
  (forall e, path_exists w pasta = false -> makedirs w pasta = Some e ->
     fst r = [Makedirs pasta;
              Print ("Erro ao criar a pasta " ++ pasta ++ ": " ++ str e)]) /\
  (path_exists w pasta = true \/ makedirs w pasta = None ->
     In Show (fst r) /\
     forall e, savefig w caminho = Some e ->
       In (Print ("Erro ao salvar o arquivo " ++ caminho ++ ": " ++ str e))
          (fst r)).
Proof.
  intros H pasta caminho r.
  pose proof (continua_ok w coluna intervalos titulo caminho true H) as K.
  cbv zeta in K. subst r. unfold composicao_histograma_boxplot.
  fold pasta. fold caminho.
  destruct (path_exists w pasta) eqn:Ex; cbn [negb].
  - (* the directory is there *)
    set (k := criar_graficos w coluna intervalos titulo ;;; _) in *.
    destruct k as [t o]. cbn in *. destruct K as (K1 & K2 & K3).
    repeat split; trivial; try discriminate.
    intros e He. now apply K3.
  - unfold criar_pasta, os_makedirs, attempt.
    destruct (makedirs w pasta) as [e|] eqn:Mk.
    + (* creation fails *)
      cbn. repeat split.
      * intros e' _ [= <-]. reflexivity.
      * destruct H0; discriminate.
      * destruct H0; discriminate.
    + set (k := criar_graficos w coluna intervalos titulo ;;; _) in *.
      destruct k as [t o]. cbn in *. destruct K as (K1 & K2 & K3).
      repeat split; trivial; try discriminate.
      * now do 2 right.
      * intros e He. do 2 right. now apply K3.
Qed.

(** C1 (amended) at work: the directory is present and the write fails. *)
Lemma C1_io_failures_caught_witness :
  let r := composicao_histograma_boxplot dir_present_write_fails
             "salario" "auto" "Distribuicao" "distribuicao.png" true in
  snd r = Ok tt /\ In Show (fst r).
Proof.
  pose proof (C1_io_failures_caught dir_present_write_fails
                "salario" "auto" "Distribuicao" "distribuicao.png"
                (fun _ => eq_refl)) as K.
  cbv zeta in K. destruct K as (K1 & _ & K3).
  split; [exact K1|]. apply K3. left. reflexivity.
Defined.

(** Without saving, the file system is not touched: the figure is built
    and displayed. *)
Example display_only_when_not_saving :
  composicao_histograma_boxplot unwritable
    "salario" "auto" "Distribuicao" "distribuicao.png" false
  = ((figura "salario" "auto" "Distribuicao" ++ [Show])%list, Ok tt).
Proof. reflexivity. Qed.

End PlotFacts.

(** ** The statistics module *)

Module StatsFacts.

Import Numeric Stats.
Local Open Scope Q_scope.

(** *** Frame: what a call leaves in the heap *)

Lemma calculo_f_state f_cdf a1 a2 st :
  snd (calculo_f f_cdf a1 a2 st) = st.
Proof.
  unfold calculo_f, bind, np_var, len, load, ret. cbn.
  destruct (gt _ _); reflexivity.
Qed.

Lemma calculo_f_reads_mem f_cdf a1 a2 st st' :
  mem st' = mem st ->
  fst (calculo_f f_cdf a1 a2 st') = fst (calculo_f f_cdf a1 a2 st).
Proof.
  intros E. unfold calculo_f, bind, np_var, len, load, ret. cbn.
  rewrite E. destruct (gt _ _); reflexivity.
Qed.

Lemma print_bind {A} (l : line) (k : unit -> St A) (s : state) :
  bind (print l) k s = k tt {| mem := mem s; stdout := stdout s ++ [l] |}.
Proof. reflexivity. Qed.

Lemma bind_run {A B} (m : St A) (k : A -> St B) (s : state) :
  bind m k s = k (fst (m s)) (snd (m s)).
Proof. unfold bind. now destruct (m s). Qed.

Ltac in_snoc :=
  repeat first [ apply in_or_app; right; left; reflexivity
               | apply in_or_app; left ].

Ltac print_step := rewrite print_bind; cbv beta; cbn [mem stdout].

(** The value [teste_f_variancias] returns is the two-tailed p-value of
    the quantities computed at lines 188-201, the heap is left as it was,
    and the report carries those quantities. *)
Lemma teste_f_variancias_eq f_cdf a1 a2 nome1 nome2 alpha st :
  let t := fst (calculo_f f_cdf a1 a2 st) in
  exists out,
    teste_f_variancias f_cdf a1 a2 nome1 nome2 alpha st
    = (p_value_two_tailed t, {| mem := mem st; stdout := out |}) /\
    In (Estatistica_F (F t)) out /\
    In (Graus_de_liberdade (df1 t) (df2 t)) out.
Proof.
  intros t. unfold teste_f_variancias.
  do 4 print_step.
  rewrite bind_run, calculo_f_state.
  match goal with
  | |- context [calculo_f f_cdf a1 a2 ?s] =>
      rewrite (calculo_f_reads_mem f_cdf a1 a2 st s eq_refl)
  end.
  fold t.
  cbv beta. do 10 print_step.
  destruct (rejeita _ _); do 2 print_step; unfold ret;
    (eexists; split; [reflexivity|]).
  all: split; in_snoc.
Qed.

Lemma teste_f_variancias_run f_cdf a1 a2 nome1 nome2 alpha st :
  let t := fst (calculo_f f_cdf a1 a2 st) in
  let r := teste_f_variancias f_cdf a1 a2 nome1 nome2 alpha st in
  fst r = p_value_two_tailed t /\
  mem (snd r) = mem st /\
  In (Estatistica_F (F t)) (stdout (snd r)) /\
  In (Graus_de_liberdade (df1 t) (df2 t)) (stdout (snd r)).
Proof.
  intros t r.
  destruct (teste_f_variancias_eq f_cdf a1 a2 nome1 nome2 alpha st)
    as (out & E & H1 & H2).
  subst r. rewrite E. cbn [fst snd mem stdout]. auto.
Qed.

Lemma calcular_estatisticas_state amostra st :
  snd (calcular_estatisticas amostra st) = st.
Proof. reflexivity. Qed.

(** The in-place variant of the median, which the module never requests,
    does reorder its argument: the frame property below is a property of
    the calls the module makes, not of the heap model. *)
Example np_median_overwrite_input_reorders :
  mem (snd (np_median 0%nat true (duas_amostras [3; 1; 2] []))) 0%nat
  = [1; 2; 3].
Proof. reflexivity. Qed.

(** C9: the statistics computations never mutate their input samples.
    After [calcular_estatisticas] and after [teste_f_variancias] every
    object of the heap, the samples passed in among them, holds what it
    held before the call. *)
Theorem C9_samples_not_mutated (f_cdf : R -> Z -> Z -> R) (st : state)
    (amostra amostra1 amostra2 : ref) (nome1 nome2 : string) (alpha : Q) :
  mem (snd (calcular_estatisticas amostra st)) = mem st /\
  mem (snd (teste_f_variancias f_cdf amostra1 amostra2 nome1 nome2 alpha st))
  = mem st.
Proof.
  split.
  - now rewrite calcular_estatisticas_state.
  - apply (teste_f_variancias_run f_cdf amostra1 amostra2 nome1 nome2 alpha st).
Qed.

(** *** The F test *)

Lemma div_pos x y : 0 < y -> div x y = Some (x / y).
Proof.
  intros H. unfold div.
  destruct (Qeq_bool y 0) eqn:E; trivial.
  apply Qeq_bool_iff in E. rewrite E in H. now apply Qlt_irrefl in H.
Qed.

Lemma Qle_bool_false x y : Qle_bool x y = false -> y < x.
Proof.
  intros H. apply Qnot_le_lt. intros K.
  apply Qle_bool_iff in K. congruence.
Qed.

Lemma Rmin_half p : (0 <= p <= 1 -> 0 <= 2 * Rmin p (1 - p) <= 1)%R.
Proof.
  intros [H0 H1]. unfold Rmin.
  destruct (Rle_dec p (1 - p)); lra.
Qed.

Section FTest.

Variable f_cdf : R -> Z -> Z -> R.

Variables (st : state) (amostra1 amostra2 : ref).
Variables v1 v2 : Q.

Hypothesis Hvar1 : var 1 (mem st amostra1) = Some v1.
Hypothesis Hvar2 : var 1 (mem st amostra2) = Some v2.
Hypothesis Hpos1 : 0 < v1.
Hypothesis Hpos2 : 0 < v2.

(** Lines 188-201 on two samples of positive variance. *)
Lemma calculo_f_positive :
  let t := fst (calculo_f f_cdf amostra1 amostra2 st) in
  let n1 := Z.of_nat (List.length (mem st amostra1)) in
  let n2 := Z.of_nat (List.length (mem st amostra2)) in
  var1 t = Some v1 /\ var2 t = Some v2 /\
  p_value_one_tailed t
  = option_map (fun x => (1 - f_cdf (Q2R x) (df1 t) (df2 t))%R) (F t) /\
  p_value_two_tailed t
  = option_map (fun p => (2 * Rmin p (1 - p))%R) (p_value_one_tailed t) /\
  ((v2 < v1 /\ F t = Some (v1 / v2) /\
    df1 t = (n1 - 1)%Z /\ df2 t = (n2 - 1)%Z) \/
   (v1 <= v2 /\ F t = Some (v2 / v1) /\
    df1 t = (n2 - 1)%Z /\ df2 t = (n1 - 1)%Z)).
Proof.
  unfold calculo_f, bind, np_var, len, load, ret. cbn.
  rewrite Hvar1, Hvar2. unfold gt, quociente.
  destruct (Qle_bool v1 v2) eqn:E; cbn.
  - rewrite (div_pos v2 v1 Hpos1).
    apply Qle_bool_iff in E. repeat split; auto 6.
  - rewrite (div_pos v1 v2 Hpos2).
    apply Qle_bool_false in E. repeat split; auto 6.
Qed.

(** The value returned on two samples of positive variance. *)
Lemma teste_f_variancias_value (nome1 nome2 : string) (alpha : Q) :
  let t := fst (calculo_f f_cdf amostra1 amostra2 st) in
  exists f : Q,
    F t = Some f /\
    p_value_one_tailed t = Some (1 - f_cdf (Q2R f) (df1 t) (df2 t))%R /\
    fst (teste_f_variancias f_cdf amostra1 amostra2 nome1 nome2 alpha st)
    = option_map (fun p => (2 * Rmin p (1 - p))%R) (p_value_one_tailed t).
Proof.
  intros t.
  destruct (teste_f_variancias_run f_cdf amostra1 amostra2 nome1 nome2 alpha st)
    as (Hr & _).
  destruct calculo_f_positive as (_ & _ & H1 & H2 & K).
  fold t in K, H1, H2, Hr. rewrite Hr, H2, H1.
  destruct K as [(_ & Hf & _) | (_ & Hf & _)]; rewrite Hf; cbn;
    eexists; repeat split.
Qed.

(** C4: on two samples of positive variance, the one-tailed value is
    [1 - CDF(F; df1, df2)] and the number [teste_f_variancias] returns is
    exactly [2 * min(p_one, 1 - p_one)]. *)
Theorem C4_two_tailed_p_value (nome1 nome2 : string) (alpha : Q) :
  let t := fst (calculo_f f_cdf amostra1 amostra2 st) in
  exists (f : Q) (p_one : R),
    F t = Some f /\
    p_one = (1 - f_cdf (Q2R f) (df1 t) (df2 t))%R /\
    p_value_one_tailed t = Some p_one /\
    fst (teste_f_variancias f_cdf amostra1 amostra2 nome1 nome2 alpha st)
    = Some (2 * Rmin p_one (1 - p_one))%R.
Proof.
  intros t.
  destruct (teste_f_variancias_value nome1 nome2 alpha) as (f & Hf & Hp & Hr).
  fold t in Hf, Hp, Hr.
  exists f, (1 - f_cdf (Q2R f) (df1 t) (df2 t))%R.
  rewrite Hr, Hp. repeat split; trivial.
Qed.

End FTest.

(** The stand-in distribution function has the two properties of the F
    distribution function used in this development. *)
Lemma cdf_racional_range x d1 d2 :
  (0 < d1)%Z -> (0 < d2)%Z -> (0 <= cdf_racional x d1 d2 <= 1)%R.
Proof.
  intros H1 H2. unfold cdf_racional.
  destruct (Rle_dec x 0) as [|Hx]; [lra|].
  apply IZR_lt in H1, H2. apply Rnot_le_lt in Hx.
  assert (0 < IZR d1 * x)%R by now apply Rmult_lt_0_compat.
  split.
  - apply Rlt_le. apply Rdiv_lt_0_compat; lra.
  - apply Rlt_le. apply Rmult_lt_reg_r with (IZR d1 * x + IZR d2)%R; [lra|].
    unfold Rdiv. rewrite Rmult_assoc, Rinv_l by lra. lra.
Qed.

Lemma cdf_racional_reciprocal x d1 d2 :
  (0 < x)%R -> (0 < d1)%Z -> (0 < d2)%Z ->
  cdf_racional (/ x) d2 d1 = (1 - cdf_racional x d1 d2)%R.
Proof.
  intros Hx H1 H2. unfold cdf_racional.
  apply IZR_lt in H1, H2.
  assert (0 < / x)%R by now apply Rinv_0_lt_compat.
  destruct (Rle_dec (/ x) 0); [lra|].
  destruct (Rle_dec x 0); [lra|].
  assert (0 < IZR d1 * x)%R by now apply Rmult_lt_0_compat.
  field. split; lra.
Qed.


(** C4 on the samples [1, 2, 3] and [2, 0, 0, 0]. *)
Lemma C4_two_tailed_p_value_witness :
  exists p_one : R,
    fst (teste_f_variancias cdf_racional 0%nat 1%nat "Grupo 1" "Grupo 2"
           (5 # 100) exemplo)
    = Some (2 * Rmin p_one (1 - p_one))%R.
Proof.
  destruct (C4_two_tailed_p_value cdf_racional exemplo 0%nat 1%nat
              (1458 # 1458) (196608 # 196608) eq_refl eq_refl eq_refl eq_refl
              "Grupo 1" "Grupo 2" (5 # 100))
    as (f & p_one & _ & _ & _ & H).
  exists p_one. exact H.
Defined.


(** *** Descriptive statistics *)

(** The dictionary [calcular_estatisticas] builds, field by field. *)
Lemma calcular_estatisticas_fields amostra st :
  let a := mem st amostra in
  fst (calcular_estatisticas amostra st)
  = {| Media := mean a;
       Mediana := median a;
       Moda := primeira_moda (mode_array a);
       Variancia := var 1 a;
       Desvio_Padrao := std 1 a;
       Assimetria := skewness a;
       Curtose := kurt false a;
       Quartil_1 := percentile a 25;
       Quartil_2_Mediana := percentile a 50;
       Quartil_3 := percentile a 75 |}.
Proof. reflexivity. Qed.

Lemma lenQ_pos (a : list Q) : a <> [] -> 0 < lenQ a.
Proof.
  intros H. unfold lenQ.
  unfold Qlt, inject_Z. cbn [Qnum Qden].
  destruct a; [congruence | cbn [List.length]; lia].
Qed.

Lemma mean_defined (a : list Q) :
  a <> [] -> mean a = Some (sumQ a / lenQ a).
Proof. intros H. unfold mean. now rewrite div_pos by now apply lenQ_pos. Qed.

Lemma mean_empty : mean [] = None.
Proof. reflexivity. Qed.

Lemma sumQ_squares_nonneg (m : Q) (a : list Q) :
  0 <= sumQ (map (fun x => (x - m) * (x - m)) a).
Proof.
  induction a as [|x a IH]; cbn; [apply Qle_refl|].
  change 0 with (0 + 0). apply Qplus_le_compat; trivial.
  destruct (Qlt_le_dec (x - m) 0) as [Hn|Hp].
  - setoid_replace ((x - m) * (x - m)) with ((- (x - m)) * (- (x - m))) by ring.
    apply Qmult_le_0_compat; apply (Qopp_le_compat (x - m) 0);
      now apply Qlt_le_weak.
  - now apply Qmult_le_0_compat.
Qed.

Lemma two_distinct_length (a : list Q) (x y : Q) :
  In x a -> In y a -> ~ x == y -> (2 <= List.length a)%nat.
Proof.
  intros Hx Hy Hne.
  destruct a as [|a0 [|a1 t]].
  - destruct Hx.
  - destruct Hx as [<-|[]], Hy as [<-|[]]. exfalso. now apply Hne.
  - cbn [List.length]. lia.
Qed.

(** The unbiased variance of a sample of at least two elements. *)
Lemma var_unbiased (a : list Q) :
  (2 <= List.length a)%nat ->
  exists m v : Q,
    mean a = Some m /\ var 1 a = Some v /\
    v == sumQ (map (fun x => (x - m) * (x - m)) a) / (lenQ a - 1) /\
    0 <= v.
Proof.
  intros Hn.
  assert (Ha : a <> []) by (intros ->; cbn in Hn; lia).
  assert (Hd : inject_Z (Z.max (Z.of_nat (List.length a) - Z.of_nat 1) 0)
               == lenQ a - 1).
  { unfold lenQ. rewrite Z.max_l by lia.
    unfold Zminus. rewrite inject_Z_plus. reflexivity. }
  assert (Hp : 0 < inject_Z (Z.max (Z.of_nat (List.length a) - Z.of_nat 1) 0)).
  { unfold Qlt, inject_Z. cbn [Qnum Qden]. lia. }
  exists (sumQ a / lenQ a). eexists.
  split; [now apply mean_defined|].
  unfold var. rewrite (mean_defined a Ha), (div_pos _ _ Hp).
  split; [reflexivity|]. split.
  - now rewrite Hd.
  - apply Qle_shift_div_l; trivial. rewrite Qmult_0_l.
    apply sumQ_squares_nonneg.
Qed.

(** C8: for a sample with at least two distinct values, the
    'Desvio Padrão' field is the square root of the 'Variância' field, its
    square is the variance, and the variance is the sum of the squared
    deviations from the mean over n - 1. *)
Theorem C8_std_is_sqrt_of_variance (st : state) (amostra : ref) :
  (exists x y : Q,
     In x (mem st amostra) /\ In y (mem st amostra) /\ ~ x == y) ->
  let e := fst (calcular_estatisticas amostra st) in
  let a := mem st amostra in
  exists (m v : Q) (sd : R),
    Media e = Some m /\
    Variancia e = Some v /\
    Desvio_Padrao e = Some sd /\
    sd = sqrt (Q2R v) /\
    (sd * sd)%R = Q2R v /\
    v == sumQ (map (fun x => (x - m) * (x - m)) a) / (lenQ a - 1).
Proof.
  intros (x & y & Hx & Hy & Hne) e a. subst e.
  rewrite calcular_estatisticas_fields. fold a. cbn [Media Variancia Desvio_Padrao].
  destruct (var_unbiased a (two_distinct_length a x y Hx Hy Hne))
    as (m & v & Hm & Hv & Hf & Hpos).
  exists m, v, (sqrt (Q2R v)). unfold std. rewrite Hm, Hv.
  repeat split; trivial.
  apply sqrt_sqrt. apply Qle_Rle in Hpos.
  now rewrite RMicromega.Q2R_0 in Hpos.
Qed.

(** C8 on the sample [1, 2, 3]. *)
Lemma C8_std_is_sqrt_of_variance_witness :
  exists (v : Q) (sd : R),
    Variancia (fst (calcular_estatisticas 0%nat exemplo)) = Some v /\
    Desvio_Padrao (fst (calcular_estatisticas 0%nat exemplo)) = Some sd /\
    (sd * sd)%R = Q2R v.
Proof.
  destruct (C8_std_is_sqrt_of_variance exemplo 0%nat)
    as (m & v & sd & _ & Hv & Hsd & _ & Hsq & _).
  - exists 1, 2. cbn. repeat split; auto. discriminate.
  - exists v, sd. auto.
Defined.

(** *** Median and second quartile *)

Lemma length_insert x l : List.length (insert x l) = S (List.length l).
Proof.
  induction l as [|y t IH]; cbn; trivial.
  destruct (Qle_bool x y); cbn; now rewrite ?IH.
Qed.

Lemma length_sort a : List.length (sort a) = List.length a.
Proof.
  induction a as [|x t IH]; cbn; trivial.
  now rewrite length_insert, IH.
Qed.

Lemma skipn_nth (s : list Q) (k : nat) (d : Q) :
  (k < List.length s)%nat -> skipn k s = nth k s d :: skipn (S k) s.
Proof.
  revert k. induction s as [|x t IH]; intros k Hk; cbn in Hk; [lia|].
  destruct k as [|k]; [reflexivity|].
  cbn [skipn nth]. apply IH. lia.
Qed.

Lemma slice_one (s : list Q) (k : nat) (d : Q) :
  (k < List.length s)%nat -> slice k (k + 1) s = [nth k s d].
Proof.
  intros Hk. unfold slice.
  replace (k + 1 - k)%nat with 1%nat by lia.
  now rewrite (skipn_nth s k d Hk).
Qed.


Lemma div2_odd k : ((2 * k + 1) / 2 = k)%nat.
Proof. symmetry. apply Nat.div_unique with 1%nat; lia. Qed.


(** The median in terms of the sorted sample. *)
Lemma median_odd (a : list Q) (k : nat) :
  List.length a = (2 * k + 1)%nat ->
  exists m, median a = Some m /\ m == nth k (sort a) 0.
Proof.
  intros Hn. unfold median. rewrite length_sort, Hn.
  replace (Nat.odd (2 * k + 1)) with true
    by (symmetry; apply Nat.odd_spec; now exists k).
  rewrite div2_odd, (slice_one (sort a) k 0)
    by (rewrite length_sort; lia).
  rewrite mean_defined by discriminate.
  eexists. split; [reflexivity|].
  set (x := nth k (sort a) 0).
  change (sumQ [x]) with (x + 0). change (lenQ [x]) with 1. field.
Qed.







Lemma lerp_same a t : lerp a a t == a.
Proof. unfold lerp. destruct (Qle_bool (1 # 2) t); ring. Qed.







(** *** Kurtosis *)

Lemma Q2R_sumQ (l : list Q) : Q2R (sumQ l) = sumR (map Q2R l).
Proof.
  unfold sumQ, sumR.
  induction l as [|x l IH]; cbn [fold_right map].
  - apply RMicromega.Q2R_0.
  - now rewrite Q2R_plus, IH.
Qed.

Lemma Q2R_lenQ (a : list Q) : Q2R (lenQ a) = INR (List.length a).
Proof.
  unfold lenQ, Q2R. cbn [Qnum Qden inject_Z].
  rewrite INR_IZR_INZ. field.
Qed.

Lemma Q2R_power4 (q : Q) : Q2R (Qpower_positive q 4) = (Q2R q ^ 4)%R.
Proof. cbn. rewrite !Q2R_mult. ring. Qed.

Lemma Q2R_power2 (q : Q) : Q2R (Qpower_positive q 2) = (Q2R q ^ 2)%R.
Proof. cbn. rewrite !Q2R_mult. ring. Qed.

Lemma sumR_div (f : Q -> R) (D : R) (l : list Q) :
  sumR (map (fun x => (f x / D)%R) l) = (sumR (map f l) / D)%R.
Proof.
  unfold sumR.
  induction l as [|x l IH]; cbn [fold_right map].
  - unfold Rdiv. now rewrite Rmult_0_l.
  - rewrite IH. unfold Rdiv. ring.
Qed.

Lemma sumR_squares_nonneg (M : R) (l : list Q) :
  (0 <= sumR (map (fun x => (Q2R x - M) ^ 2) l))%R.
Proof.
  unfold sumR.
  induction l as [|x l IH]; cbn [fold_right map]; [lra|].
  pose proof (pow2_ge_0 (Q2R x - M)). lra.
Qed.

(** A central moment of a non-empty sample, in the reals. *)
Lemma moment_defined (k : positive) (a : list Q) :
  a <> [] ->
  exists mu m : Q,
    mean a = Some mu /\ moment k a = Some m /\
    m = sumQ (deviations k mu a) / lenQ a.
Proof.
  intros Ha. exists (sumQ a / lenQ a). eexists.
  split; [now apply mean_defined|].
  unfold moment. rewrite (mean_defined a Ha).
  assert (Hd : deviations k (sumQ a / lenQ a) a <> [])
    by (destruct a; [congruence | discriminate]).
  rewrite (mean_defined _ Hd).
  split; [reflexivity|].
  unfold lenQ, deviations. now rewrite length_map.
Qed.

Lemma Q2R_deviations4 (mu : Q) (a : list Q) :
  Q2R (sumQ (deviations 4 mu a))
  = sumR (map (fun x => (Q2R x - Q2R mu) ^ 4)%R a).
Proof.
  rewrite Q2R_sumQ. unfold deviations. rewrite map_map. f_equal.
  apply map_ext. intros x. now rewrite Q2R_power4, Q2R_minus.
Qed.

Lemma Q2R_deviations2 (mu : Q) (a : list Q) :
  Q2R (sumQ (deviations 2 mu a))
  = sumR (map (fun x => (Q2R x - Q2R mu) ^ 2)%R a).
Proof.
  rewrite Q2R_sumQ. unfold deviations. rewrite map_map. f_equal.
  apply map_ext. intros x. now rewrite Q2R_power2, Q2R_minus.
Qed.

Lemma Qeq_bool_square (x : Q) : Qeq_bool (x * x) 0 = Qeq_bool x 0.
Proof.
  apply eq_true_iff_eq. rewrite !Qeq_bool_iff. split; intros H.
  - destruct (Qmult_integral _ _ H); trivial.
  - rewrite H. ring.
Qed.

(** C5: the 'Curtose' field is the fourth standardized moment of the
    sample with no shift: it equals, as a real number, the mean of the
    fourth powers of [(x - mean) / sigma] written out from the elements of
    the sample alone, and is a number exactly when that is one (on a
    non-empty sample whose values are not all equal).  It is not Fisher's
    excess kurtosis: that convention, which the call turns off, gives the
    same value less 3. *)
Theorem C5_kurtosis_is_fourth_standardized_moment
    (st : state) (amostra : ref) :
  let e := fst (calcular_estatisticas amostra st) in
  let a := mem st amostra in
  option_map Q2R (Curtose e) = fourth_standardized_moment a /\
  option_map Q2R (kurt true a)
  = option_map (fun k => (k - 3)%R) (fourth_standardized_moment a).
Proof.
  intros e a. subst e. rewrite calcular_estatisticas_fields. fold a.
  cbn [Curtose].
  assert (Hmain : option_map Q2R (kurt false a) = fourth_standardized_moment a).
  { destruct a as [|x0 t] eqn:Ea; [reflexivity|]. rewrite <- Ea.
    assert (Ha : a <> []) by (rewrite Ea; discriminate).
    destruct (moment_defined 2 a Ha) as (mu & m2 & Hmu & Hm2 & E2).
    destruct (moment_defined 4 a Ha) as (mu' & m4 & Hmu' & Hm4 & E4).
    rewrite Hmu in Hmu'. injection Hmu' as <-.
    assert (Hn : (0 < INR (List.length a))%R)
      by (apply lt_0_INR; rewrite Ea; cbn; lia).
    assert (Nn : ~ lenQ a == 0).
    { intros K. apply Qeq_eqR in K.
      rewrite Q2R_lenQ, RMicromega.Q2R_0 in K. lra. }
    assert (Vmu : Q2R mu = (sumR (map Q2R a) / INR (List.length a))%R).
    { rewrite (mean_defined a Ha) in Hmu. injection Hmu as <-.
      now rewrite Q2R_div, Q2R_sumQ, Q2R_lenQ. }
    assert (V2 : Q2R m2
                 = (sumR (map (fun x => (Q2R x - Q2R mu) ^ 2)%R a)
                    / INR (List.length a))%R).
    { now rewrite E2, Q2R_div, Q2R_deviations2, Q2R_lenQ. }
    assert (P2 : (0 <= Q2R m2)%R).
    { rewrite V2. apply Rmult_le_pos.
      - apply sumR_squares_nonneg.
      - apply Rlt_le. now apply Rinv_0_lt_compat. }
    unfold kurt, fourth_standardized_moment. rewrite Hm2, Hm4.
    rewrite Ea at 1. rewrite <- Vmu, <- V2.
    unfold div. rewrite Qeq_bool_square.
    destruct (Qeq_bool m2 0) eqn:Z2.
    - apply Qeq_bool_iff, Qeq_eqR in Z2. rewrite RMicromega.Q2R_0 in Z2.
      rewrite Z2, sqrt_0.
      destruct (Req_EM_T 0 0) as [_|K]; [reflexivity | now destruct K].
    - assert (N2 : ~ m2 == 0)
        by (intros K; apply Qeq_bool_iff in K; congruence).
      assert (Q2R m2 <> 0)%R.
      { intros K. apply N2. apply eqR_Qeq. now rewrite RMicromega.Q2R_0. }
      set (sigma := sqrt (Q2R m2)).
      assert (Hs : (sigma * sigma)%R = Q2R m2) by (apply sqrt_sqrt; lra).
      assert (Ps : (0 < sigma)%R) by (apply sqrt_lt_R0; lra).
      destruct (Req_EM_T sigma 0) as [K|_]; [lra|].
      cbn [option_map]. f_equal.
      rewrite Q2R_div, Q2R_mult
        by (intros K; destruct (Qmult_integral _ _ K); auto).
      rewrite E4, Q2R_div, Q2R_deviations4, Q2R_lenQ by trivial.
      rewrite (map_ext (fun x => (((Q2R x - Q2R mu) / sigma) ^ 4)%R)
                       (fun x => ((Q2R x - Q2R mu) ^ 4 / (sigma ^ 4))%R)).
      2:{ intros x. field. lra. }
      rewrite (sumR_div (fun x => (Q2R x - Q2R mu) ^ 4)%R).
      rewrite <- Hs. field. lra. }
  split; [exact Hmain|].
  rewrite <- Hmain. unfold kurt.
  destruct (moment 2 a), (moment 4 a); trivial.
  destruct (div _ _); [|reflexivity].
  cbn [option_map]. f_equal.
  unfold Qminus. rewrite Q2R_plus, Q2R_opp.
  replace (Q2R 3) with 3%R by (unfold Q2R; cbn; lra). reflexivity.
Qed.

(** *** Mode *)

Lemma count_cons (z x : Q) (l : list Q) :
  count z (x :: l) = ((if Qeq_bool z x then 1 else 0) + count z l)%nat.
Proof. unfold count. cbn [filter]. now destruct (Qeq_bool z x). Qed.

Lemma count_compat (v x : Q) (l : list Q) :
  v == x -> count v l = count x l.
Proof.
  intros E. unfold count. f_equal. apply filter_ext. intros z.
  apply eq_true_iff_eq. rewrite !Qeq_bool_iff. now rewrite E.
Qed.

Lemma count_none (x : Q) (l : list Q) :
  (forall z, In z l -> x < z) -> count x l = 0%nat.
Proof.
  induction l as [|y l IH]; intros H; [reflexivity|].
  rewrite count_cons, IH by (intros z Hz; apply H; now right).
  destruct (Qeq_bool x y) eqn:E; trivial.
  apply Qeq_bool_iff in E. specialize (H y (or_introl eq_refl)).
  rewrite E in H. now apply Qlt_irrefl in H.
Qed.

Lemma Qeq_bool_lt (v x : Q) : x < v -> Qeq_bool v x = false.
Proof.
  intros H. destruct (Qeq_bool v x) eqn:E; trivial.
  apply Qeq_bool_iff in E. rewrite E in H. now apply Qlt_irrefl in H.
Qed.

Lemma insert_In (z x : Q) (l : list Q) :
  In z (insert x l) <-> z = x \/ In z l.
Proof.
  induction l as [|y l IH]; cbn.
  - intuition.
  - destruct (Qle_bool x y); cbn; rewrite ?IH; intuition.
Qed.

Lemma sort_In (z : Q) (a : list Q) : In z (sort a) <-> In z a.
Proof.
  induction a as [|x a IH]; cbn; [tauto|].
  rewrite insert_In, IH. intuition.
Qed.

Lemma count_insert (z x : Q) (l : list Q) :
  count z (insert x l) = count z (x :: l).
Proof.
  induction l as [|y l IH]; [reflexivity|]. cbn [insert].
  destruct (Qle_bool x y); trivial.
  rewrite count_cons, IH, !count_cons. lia.
Qed.

Lemma count_sort (z : Q) (a : list Q) : count z (sort a) = count z a.
Proof.
  induction a as [|x a IH]; [reflexivity|]. cbn [sort].
  now rewrite count_insert, !count_cons, IH.
Qed.

Lemma insert_sorted (x : Q) (l : list Q) :
  StronglySorted Qle l -> StronglySorted Qle (insert x l).
Proof.
  induction 1 as [|y l Hs IH Hy]; cbn.
  - constructor; constructor.
  - destruct (Qle_bool x y) eqn:E.
    + apply Qle_bool_iff in E. constructor.
      * now constructor.
      * constructor; trivial.
        eapply Forall_impl; [|exact Hy].
        intros z Hz. now apply Qle_trans with y.
    + apply Qle_bool_false in E. constructor; trivial.
      apply Forall_forall. intros z Hz. apply insert_In in Hz.
      destruct Hz as [->|Hz].
      * now apply Qlt_le_weak.
      * rewrite Forall_forall in Hy. now apply Hy.
Qed.

Lemma sort_sorted (a : list Q) : StronglySorted Qle (sort a).
Proof.
  induction a as [|x a IH]; cbn; [constructor|]. now apply insert_sorted.
Qed.

(** The runs of a sorted sample: values in strictly increasing order, each
    with the number of its occurrences, none missing. *)
Lemma run_lengths_spec (s : list Q) :
  StronglySorted Qle s ->
  StronglySorted (fun p q : Q * nat => fst p < fst q) (run_lengths s) /\
  (forall v c, In (v, c) (run_lengths s) -> In v s /\ c = count v s) /\
  (forall x, In x s -> exists v c, In (v, c) (run_lengths s) /\ v == x) /\
  (forall x t, s = x :: t -> exists c r, run_lengths s = (x, c) :: r).
Proof.
  induction 1 as [|x t Hs IH Hx].
  - cbn. repeat split; try constructor; try contradiction; discriminate.
  - destruct IH as (I1 & I2 & I3 & I4).
    rewrite Forall_forall in Hx.
    destruct t as [|y t'].
    + cbn [run_lengths]. split; [|split; [|split]].
      * constructor; constructor.
      * intros v c [[= <- <-]|[]]. split; [now left|].
        now rewrite count_cons, Qeq_bool_refl.
      * intros z [<-|[]]. exists x, 1%nat. split; [now left | reflexivity].
      * intros z t [= <- <-]. now exists 1%nat, [].
    + destruct (I4 y t' eq_refl) as (c & r & E).
      assert (Hxy : x <= y) by (apply Hx; now left).
      assert (Hyz : forall z, In z (y :: t') -> y <= z).
      { intros z [<-|Hz]; [apply Qle_refl|].
        apply StronglySorted_inv in Hs. destruct Hs as [_ Hy].
        rewrite Forall_forall in Hy. now apply Hy. }
      rewrite E in I1, I2, I3.
      apply StronglySorted_inv in I1. destruct I1 as [Sr Fr].
      rewrite Forall_forall in Fr. cbn [fst] in Fr.
      change (run_lengths (x :: y :: t'))
        with (match run_lengths (y :: t') with
              | (y0, c0) :: r0 =>
                  if Qeq_bool x y0 then (x, S c0) :: r0
                  else (x, 1%nat) :: (y0, c0) :: r0
              | [] => [(x, 1%nat)]
              end).
      rewrite E.
      destruct (I2 y c (or_introl eq_refl)) as [_ Hc].
      destruct (Qeq_bool x y) eqn:Exy.
      * (* x starts the run of y *)
        apply Qeq_bool_iff in Exy.
        assert (Hrx : forall p, In p r -> x < fst p)
          by (intros p Hp; rewrite Exy; now apply Fr).
        split; [|split; [|split]].
        -- constructor; trivial. now apply Forall_forall.
        -- intros v c' [[= <- <-]|Hv].
           ++ split; [now left|].
              rewrite count_cons, (count_compat x y) by trivial.
              rewrite Hc. now rewrite Qeq_bool_refl.
           ++ destruct (I2 v c' (or_intror Hv)) as [Hin Hcv].
              split; [now right|].
              rewrite count_cons, (Qeq_bool_lt v x) by apply (Hrx _ Hv).
              exact Hcv.
        -- intros z [<-|Hz].
           ++ exists x, (S c). split; [now left | reflexivity].
           ++ destruct (I3 z Hz) as (v & c' & [[= <- <-]|Hv] & Ev).
              ** exists x, (S c). split; [now left|]. now rewrite Exy.
              ** exists v, c'. split; [now right | trivial].
        -- intros z t [= <- <-]. now exists (S c), r.
      * (* x is a run of its own *)
        assert (Hlt : x < y).
        { apply Qle_lteq in Hxy. destruct Hxy as [|K]; trivial.
          apply Qeq_bool_iff in K. congruence. }
        split; [|split; [|split]].
        -- constructor.
           ++ constructor; trivial. now apply Forall_forall.
           ++ apply Forall_forall. intros p [<-|Hp]; trivial.
              cbn [fst]. apply Qlt_trans with y; trivial. now apply Fr.
        -- intros v c' [[= <- <-]|Hv].
           ++ split; [now left|].
              rewrite count_cons, Qeq_bool_refl.
              rewrite count_none; trivial.
              intros z Hz. apply Qlt_le_trans with y; auto.
           ++ destruct (I2 v c' Hv) as [Hin Hcv].
              split; [now right|].
              rewrite count_cons, Qeq_bool_lt; trivial.
              apply Qlt_le_trans with y; auto.
        -- intros z [<-|Hz].
           ++ exists x, 1%nat. split; [now left | reflexivity].
           ++ destruct (I3 z Hz) as (v & c' & Hv & Ev).
              exists v, c'. split; [now right | trivial].
        -- intros z t [= <- <-]. now exists 1%nat, ((y, c) :: r).
Qed.

(** [argmax] returns an entry with the largest count, and among the
    entries with that count the one with the smallest value. *)
Lemma argmax_spec (l : list (Q * nat)) :
  forall best,
    StronglySorted (fun p q : Q * nat => fst p < fst q) (best :: l) ->
    In (argmax best l) (best :: l) /\
    (forall p, In p (best :: l) -> (snd p <= snd (argmax best l))%nat) /\
    (forall p, In p (best :: l) -> snd p = snd (argmax best l) ->
               fst (argmax best l) <= fst p).
Proof.
  induction l as [|vc t IH]; intros best Hs.
  - cbn. repeat split.
    + now left.
    + intros p [<-|[]]. lia.
    + intros p [<-|[]] _. apply Qle_refl.
  - apply StronglySorted_inv in Hs. destruct Hs as [Hs Hb].
    pose proof Hs as Hs'.
    apply StronglySorted_inv in Hs'. destruct Hs' as [Ht Hvc].
    inversion Hb as [|? ? Hbv Hbt]; subst.
    cbn [argmax]. destruct (snd best <? snd vc)%nat eqn:E.
    + apply Nat.ltb_lt in E.
      destruct (IH vc Hs) as (A1 & A2 & A3).
      split; [now right|]. split.
      * intros p [<-|Hp]; [|now apply A2].
        specialize (A2 vc (or_introl eq_refl)). lia.
      * intros p [<-|Hp] Hc; [|now apply A3].
        specialize (A2 vc (or_introl eq_refl)). lia.
    + apply Nat.ltb_ge in E.
      assert (Hs2 : StronglySorted (fun p q : Q * nat => fst p < fst q)
                      (best :: t)) by now constructor.
      destruct (IH best Hs2) as (A1 & A2 & A3).
      split; [|split].
      * destruct A1 as [A1|A1]; [now left | now right; right].
      * intros p [<-|[<-|Hp]].
        -- apply A2. now left.
        -- specialize (A2 best (or_introl eq_refl)). lia.
        -- apply A2. now right.
      * intros p [<-|[<-|Hp]] Hc.
        -- apply A3; [now left | trivial].
        -- apply Qle_trans with (fst best).
           ++ apply A3; [now left|].
              specialize (A2 best (or_introl eq_refl)). lia.
           ++ now apply Qlt_le_weak.
        -- apply A3; [now right | trivial].
Qed.

(** The mode of a non-empty sample. *)
Lemma mode_array_spec (a : list Q) :
  a <> [] ->
  exists m : Q,
    mode_array a = [m] /\ In m a /\
    (forall x, In x a -> (count x a <= count m a)%nat) /\
    (forall x, In x a -> count x a = count m a -> m <= x).
Proof.
  intros Ha.
  destruct (run_lengths_spec (sort a) (sort_sorted a)) as (R1 & R2 & R3 & R4).
  unfold mode_array, unique_counts.
  destruct (sort a) as [|x0 t0] eqn:Es.
  { exfalso. apply Ha. destruct a as [|x a]; trivial.
    assert (K : In x (sort (x :: a))) by (apply sort_In; now left).
    rewrite Es in K. destruct K. }
  rewrite <- Es in *.
  destruct (R4 x0 t0 Es) as (c0 & r & E). rewrite E in *.
  destruct (argmax_spec r (x0, c0) R1) as (A1 & A2 & A3).
  set (w := argmax (x0, c0) r) in *.
  destruct w as [m cm] eqn:Ew. cbn [fst snd] in *.
  destruct (R2 m cm A1) as [Hm Hcm].
  rewrite sort_In in Hm. rewrite count_sort in Hcm.
  exists m. split; [reflexivity|]. split; [trivial|].
  assert (K : forall x, In x a ->
            exists v c, In (v, c) ((x0, c0) :: r) /\ v == x /\ c = count x a).
  { intros x Hx. apply sort_In in Hx.
    destruct (R3 x Hx) as (v & c & Hv & Ev).
    exists v, c. repeat split; trivial.
    destruct (R2 v c Hv) as [_ ->].
    now rewrite count_sort, (count_compat v x). }
  split.
  - intros x Hx. destruct (K x Hx) as (v & c & Hv & Ev & ->).
    rewrite <- Hcm. exact (A2 (v, count x a) Hv).
  - intros x Hx Hc. destruct (K x Hx) as (v & c & Hv & Ev & ->).
    rewrite <- Ev. apply (A3 (v, count x a) Hv). cbn [snd]. congruence.
Qed.

(** C6: for a non-empty sample the 'Moda' field is a most frequent value
    of the sample, the smallest of them; in particular it is the smallest
    element when no value repeats.  When the array returned by the mode
    routine is empty the field is NaN, and none of this raises. *)
Theorem C6_moda_most_frequent_smallest (st : state) (amostra : ref) :
  mem st amostra <> [] ->
  let e := fst (calcular_estatisticas amostra st) in
  let a := mem st amostra in
  (exists m : Q,
     Moda e = Some m /\ In m a /\
     (forall x, In x a -> (count x a <= count m a)%nat) /\
     (forall x, In x a -> count x a = count m a -> m <= x) /\
     ((forall x, In x a -> count x a = 1%nat) ->
      forall x, In x a -> m <= x)) /\
  primeira_moda [] = None.
Proof.
  intros Ha e a. subst e. rewrite calcular_estatisticas_fields. fold a.
  cbn [Moda]. split; [|reflexivity].
  destruct (mode_array_spec a Ha) as (m & Em & Hin & Hmax & Hmin).
  exists m. rewrite Em. repeat split; trivial.
  intros Hone x Hx. apply Hmin; trivial.
  now rewrite (Hone x Hx), (Hone m Hin).
Qed.

(** C6 on the sample [1, 2, 3], where no value repeats. *)
Lemma C6_moda_most_frequent_smallest_witness :
  exists m : Q,
    Moda (fst (calcular_estatisticas 0%nat exemplo)) = Some m /\
    forall x, In x [1; 2; 3] -> m <= x.
Proof.
  destruct (C6_moda_most_frequent_smallest exemplo 0%nat)
    as [(m & Hm & _ & _ & _ & Hone) _].
  - discriminate.
  - exists m. split; [exact Hm|]. apply Hone.
    intros x Hx. cbn in Hx.
    destruct Hx as [<-|[<-|[<-|[]]]]; reflexivity.
Defined.

(** *** Reference values *)

(** The sample of the docstring: mean 94/7 (13.43), median 12, mode 10,
    first quartile 10. *)
Example docstring_sample :
  let a := [10; 12; 14; 10; 18; 20; 10] in
  mode_array a = [10] /\
  (exists mu, mean a = Some mu /\ mu == 94 # 7) /\
  (exists m, median a = Some m /\ m == 12) /\
  (exists q, percentile a 25 = Some q /\ q == 10).
Proof.
  cbv zeta. split; [reflexivity|].
  split; [|split]; eexists; (split; [vm_compute; reflexivity | reflexivity]).
Qed.

(** A symmetric sample: mean and median agree; its moment kurtosis is
    17/10, Fisher's would be 17/10 - 3. *)
Example symmetric_sample :
  let a := [1; 2; 3; 4; 5] in
  (exists mu m, mean a = Some mu /\ median a = Some m /\ mu == m) /\
  (exists k, kurt false a = Some k /\ k == 17 # 10) /\
  (exists k, kurt true a = Some k /\ k == -13 # 10).
Proof.
  cbv zeta. split; [|split].
  - do 2 eexists. split; [vm_compute; reflexivity|].
    split; [vm_compute; reflexivity | reflexivity].
  - eexists. split; [vm_compute; reflexivity | reflexivity].
  - eexists. split; [vm_compute; reflexivity | reflexivity].
Qed.

(** A sample of one element has no unbiased variance (NaN), and a sample
    of zero variance has no kurtosis. *)
Example degenerate_samples :
  var 1 [5] = None /\ kurt false [3; 3; 3] = None /\ median [] = None.
Proof. repeat split. Qed.

End StatsFacts.

(** ** The residual plot *)

Module ResiduosFacts.

Import Plot(exn, Exception, result, Ok, Raise).
Import Residuos.
Local Open Scope Q_scope.

Lemma least_spec (l : list Q) :
  forall m, least m l <= m /\ forall x, In x l -> least m l <= x.
Proof.
  induction l as [|y t IH]; intros m; cbn [least].
  - split; [apply Qle_refl | contradiction].
  - destruct (Qle_bool m y) eqn:E.
    + apply Qle_bool_iff in E. destruct (IH m) as [H1 H2].
      split; trivial. intros x [<-|Hx]; [|now apply H2].
      now apply Qle_trans with m.
    + assert (Hy : y <= m).
      { apply Qlt_le_weak, Qnot_le_lt. intros K.
        apply Qle_bool_iff in K. congruence. }
      destruct (IH y) as [H1 H2].
      split; [now apply Qle_trans with y|].
      intros x [<-|Hx]; [trivial | now apply H2].
Qed.

Lemma greatest_spec (l : list Q) :
  forall m, m <= greatest m l /\ forall x, In x l -> x <= greatest m l.
Proof.
  induction l as [|y t IH]; intros m; cbn [greatest].
  - split; [apply Qle_refl | contradiction].
  - destruct (Qle_bool y m) eqn:E.
    + apply Qle_bool_iff in E. destruct (IH m) as [H1 H2].
      split; trivial. intros x [<-|Hx]; [|now apply H2].
      now apply Qle_trans with m.
    + assert (Hy : m <= y).
      { apply Qlt_le_weak, Qnot_le_lt. intros K.
        apply Qle_bool_iff in K. congruence. }
      destruct (IH y) as [H1 H2].
      split; [now apply Qle_trans with y|].
      intros x [<-|Hx]; [trivial | now apply H2].
Qed.

(** The limits computed at lines 246-247 from a first residual [x0] and
    the others. *)
Lemma limites_spec (x0 : Q) (t : list Q) :
  let ymin := min2 (least x0 t) (-3) * (11 # 10) in
  let ymax := max2 (greatest x0 t) 3 * (11 # 10) in
  ymin <= - (33 # 10) /\ 33 # 10 <= ymax /\
  forall x, In x (x0 :: t) -> ymin < x /\ x < ymax.
Proof.
  intros ymin ymax. subst ymin ymax. unfold min2, max2.
  destruct (least_spec [-3] (least x0 t)) as [L1 L2].
  destruct (greatest_spec [3] (greatest x0 t)) as [G1 G2].
  specialize (L2 (-3) (or_introl eq_refl)).
  specialize (G2 3 (or_introl eq_refl)).
  set (lo := least (least x0 t) [-3]) in *.
  set (hi := greatest (greatest x0 t) [3]) in *.
  assert (Hneg : 0 < - lo).
  { apply (Qplus_lt_l _ _ lo). ring_simplify.
    apply Qle_lt_trans with (-3); [trivial | reflexivity]. }
  assert (Hlo : lo * (11 # 10) < lo).
  { apply Qlt_minus_iff.
    setoid_replace (lo + - (lo * (11 # 10))) with ((- lo) * (1 # 10)) by ring.
    apply Qmult_lt_0_compat; [trivial | reflexivity]. }
  assert (Hhi : hi < hi * (11 # 10)).
  { apply Qlt_minus_iff.
    setoid_replace (hi * (11 # 10) + - hi) with (hi * (1 # 10)) by ring.
    apply Qmult_lt_0_compat; [|reflexivity].
    apply Qlt_le_trans with 3; [reflexivity | trivial]. }
  split; [|split].
  - setoid_replace (- (33 # 10)) with (-3 * (11 # 10)) by reflexivity.
    apply Qmult_le_compat_r; [trivial | discriminate].
  - setoid_replace (33 # 10) with (3 * (11 # 10)) by reflexivity.
    apply Qmult_le_compat_r; [trivial | discriminate].
  - intros x Hx.
    destruct (least_spec t x0) as [A1 A2].
    destruct (greatest_spec t x0) as [B1 B2].
    assert (least x0 t <= x) by (destruct Hx as [<-|Hx]; auto).
    assert (x <= greatest x0 t) by (destruct Hx as [<-|Hx]; auto).
    split.
    + apply Qlt_le_trans with lo; trivial.
      now apply Qle_trans with (least x0 t).
    + apply Qle_lt_trans with hi; trivial.
      now apply Qle_trans with (greatest x0 t).
Qed.

(** X1: on a non-empty vector of residuals, with a backend that accepts
    every call, [grafico_residuos] makes exactly the calls below and
    returns.  The vertical limits it sets reach at least from -3.3 to 3.3
    and hold every residual strictly inside, so no point and none of the
    reference lines at 0, 2 and -2 is cut off. *)
Theorem grafico_residuos_shows_every_residual
    (backend : call -> option exn) (residuos : list Q) :
  residuos <> [] ->
  (forall c, backend c = None) ->
  exists ymin ymax : Q,
    grafico_residuos backend residuos
    = ([plt_figure 8 4;
        sns_scatterplot (seq 0 (List.length residuos)) residuos;
        ax_set_ylim ymin ymax;
        ax_axhline 0; ax_axhline 2; ax_axhline (-2);
        ax_set_title "Gráfico de Resíduos Padronizados";
        ax_set_xlabel "Observações";
        ax_set_ylabel "Resíduos Padronizados";
        plt_tight_layout; plt_show], Ok tt) /\
    ymin <= - (33 # 10) /\ 33 # 10 <= ymax /\
    forall x, In x residuos -> ymin < x /\ x < ymax.
Proof.
  intros Hne Hok. destruct residuos as [|x0 t]; [congruence|].
  exists (min2 (least x0 t) (-3) * (11 # 10)),
         (max2 (greatest x0 t) 3 * (11 # 10)).
  split; [|apply limites_spec].
  unfold grafico_residuos, invoke, py_min, py_max, bind, ret. cbv zeta.
  repeat (rewrite Hok; cbv beta iota). reflexivity.
Qed.

Lemma grafico_residuos_shows_every_residual_witness :
  exists ymin ymax : Q,
    In (ax_set_ylim ymin ymax)
       (fst (grafico_residuos backend_ok [1 # 2; -4; 2])) /\
    ymin < -4 /\ 2 < ymax.
Proof.
  destruct (grafico_residuos_shows_every_residual backend_ok [1 # 2; -4; 2])
    as (ymin & ymax & E & _ & _ & H).
  - discriminate.
  - reflexivity.
  - exists ymin, ymax. rewrite E. split.
    + cbn. tauto.
    + split; [apply (H (-4)) | apply (H 2)]; cbn; tauto.
Defined.

(** X2: with no residual at all, [grafico_residuos] raises (the builtin
    [min] refuses an empty sequence) whatever the backend does, and
    [plt.show] is never reached. *)
Theorem grafico_residuos_empty_raises (backend : call -> option exn) :
  exists e : exn,
    snd (grafico_residuos backend []) = Raise e /\
    ~ In plt_show (fst (grafico_residuos backend [])).
Proof.
  unfold grafico_residuos, invoke. cbv zeta. cbn [List.length seq].
  destruct (backend (plt_figure 8 4)) as [e|].
  - exists e. cbn. split; [reflexivity|]. intros [K|[]]. discriminate.
  - destruct (backend (sns_scatterplot [] [])) as [e|].
    + exists e. cbn. split; [reflexivity|].
      intros [K|[K|[]]]; discriminate.
    + eexists. cbn. split; [reflexivity|].
      intros [K|[K|[]]]; discriminate.
Qed.

End ResiduosFacts.

(** ** The distribution plot: further properties *)

Module PlotMore.

Import Plot PlotAux PlotFacts.
Local Open Scope string_scope.

(** One plotting call: it raises and ends the construction, or the
    construction goes on. *)
Ltac passo w c :=
  let E := fresh "E" in
  destruct (plot w c) as [?e|] eqn:E;
  [ right; eexists; eexists; exists c;
    split; [reflexivity|]; split; [reflexivity|]; split; [exact E|];
    cbn; repeat first [left; reflexivity | right]
  | ].

(** The figure is built completely, or the first plotting call that
    raises ends the construction with its exception. *)
Lemma criar_graficos_cases w coluna intervalos titulo :
  ((forall c, In (Draw c) (figura coluna intervalos titulo) ->
              plot w c = None) /\
   criar_graficos w coluna intervalos titulo
   = (figura coluna intervalos titulo, Ok tt)) \/
  (exists tr e c,
     criar_graficos w coluna intervalos titulo = (tr, Raise e) /\
     forallb eh_desenho tr = true /\
     plot w c = Some e /\ In (Draw c) (figura coluna intervalos titulo)).
Proof.
  unfold criar_graficos, estilo_eixo, draw, attempt.
  passo w subplots. passo w (sns_boxplot coluna).
  passo w (sns_histplot coluna intervalos).
  passo w (ax_grid ax1). passo w (ax_set_axisbelow ax1).
  passo w (ax_hide_spines ax1). passo w (ax_set_xlabel ax1).
  passo w (ax_set_ylabel ax1).
  passo w (ax_grid ax2). passo w (ax_set_axisbelow ax2).
  passo w (ax_hide_spines ax2). passo w (ax_set_xlabel ax2).
  passo w (ax_set_ylabel ax2).
  passo w (axvline_mean coluna). passo w (axvline_median coluna).
  passo w (axvline_mode coluna). passo w ax2_legend.
  passo w (fig_suptitle titulo).
  left. split; [|reflexivity].
  intros c Hc. cbn in Hc.
  repeat (destruct Hc as [[= <-]|Hc]; [assumption|]). destruct Hc.
Qed.

(** The runs of [composicao_histograma_boxplot]: an early return after a
    failed creation of the directory; or, after the directory step, a
    complete figure followed by the optional save and the display; or an
    exception from a plotting call. *)
Lemma composicao_run w coluna intervalos titulo nome_arquivo salvar :
  let pasta := os_path_join (getcwd w) "images" in
  let caminho := os_path_join pasta nome_arquivo in
  let r := composicao_histograma_boxplot w coluna intervalos titulo
             nome_arquivo salvar in
  (salvar = true /\ path_exists w pasta = false /\
   exists e, makedirs w pasta = Some e /\
     r = ([Makedirs pasta;
           Print ("Erro ao criar a pasta " ++ pasta ++ ": " ++ str e)],
          Ok tt)) \/
  (exists P,
     ((P = [] /\ (salvar = false \/ path_exists w pasta = true)) \/
      (P = [Makedirs pasta; Print ("Pasta criada em: " ++ pasta)] /\
       salvar = true /\ path_exists w pasta = false /\
       makedirs w pasta = None)) /\
     (((forall c, In (Draw c) (figura coluna intervalos titulo) ->
                  plot w c = None) /\
       exists S,
         r = ((P ++ figura coluna intervalos titulo ++ S ++ [Show])%list,
              Ok tt) /\
         ((salvar = false /\ S = []) \/
          (salvar = true /\ exists l, S = [Savefig caminho; Print l]))) \/
      (exists tr e c,
         r = ((P ++ tr)%list, Raise e) /\ forallb eh_desenho tr = true /\
         plot w c = Some e /\
         In (Draw c) (figura coluna intervalos titulo)))).
Proof.
  intros pasta caminho r. subst r.
  unfold composicao_histograma_boxplot. fold pasta. fold caminho.
  assert (K : forall P,
    let k := criar_graficos w coluna intervalos titulo ;;;
             (if salvar then salvar_grafico w caminho else ret tt) ;;;
             plt_show in
    ((forall c, In (Draw c) (figura coluna intervalos titulo) ->
                plot w c = None) /\
     exists S,
       ((P ++ fst k)%list, snd k)
       = ((P ++ figura coluna intervalos titulo ++ S ++ [Show])%list, Ok tt) /\
       ((salvar = false /\ S = []) \/
        (salvar = true /\ exists l, S = [Savefig caminho; Print l]))) \/
    (exists tr e c,
       ((P ++ fst k)%list, snd k) = ((P ++ tr)%list, Raise e) /\
       forallb eh_desenho tr = true /\
       plot w c = Some e /\
       In (Draw c) (figura coluna intervalos titulo))).
  { intros P k. subst k.
    destruct (criar_graficos_cases w coluna intervalos titulo)
      as [[Hall E] | (tr & e & c & E & Htr & Hc & Hin)]; rewrite E.
    - left. split; trivial. destruct salvar.
      + unfold salvar_grafico, plt_savefig, attempt.
        destruct (savefig w caminho) as [e|];
          (eexists; split; [reflexivity|]); right; split; trivial;
          eexists; reflexivity.
      + exists []. split; [reflexivity|]. now left.
    - right. exists tr, e, c. repeat split; trivial. }
  destruct salvar.
  - destruct (path_exists w pasta) eqn:Ex; cbn [negb].
    + right. exists []. split; [left; split; [reflexivity | now right]|].
      specialize (K []). cbv zeta in K.
      destruct (criar_graficos w coluna intervalos titulo ;;; _) as [t o].
      exact K.
    + unfold criar_pasta, os_makedirs, attempt.
      destruct (makedirs w pasta) as [e|] eqn:Mk.
      * left. repeat split. exists e. split; reflexivity.
      * right. eexists. split; [right; repeat split; reflexivity|].
        specialize (K [Makedirs pasta; Print ("Pasta criada em: " ++ pasta)]).
        cbv zeta in K.
        destruct (criar_graficos w coluna intervalos titulo ;;; _) as [t o].
        exact K.
  - right. exists []. split; [left; split; [reflexivity | now left]|].
    specialize (K []). cbv zeta in K.
    destruct (criar_graficos w coluna intervalos titulo ;;; _) as [t o].
    exact K.
Qed.

Lemma desenhos_only (tr : list event) :
  forallb eh_desenho tr = true ->
  ~ In Show tr /\ (forall p, ~ In (Makedirs p) tr) /\
  (forall p, ~ In (Savefig p) tr).
Proof.
  intros H. rewrite forallb_forall in H.
  repeat split; [|intros p|intros p]; intros K; apply H in K; discriminate K.
Qed.

Lemma figura_desenhos coluna intervalos titulo :
  forallb eh_desenho (figura coluna intervalos titulo) = true.
Proof. reflexivity. Qed.

(** X3: the file system is touched only when saving.  Whatever the
    environment does, the directory is created only by a call that saves
    and finds it absent, and the image is written only by a call that
    saves, at [cwd/images/nome_arquivo], after every plotting call has
    succeeded.  A call with [salvar=False] attempts neither. *)
Theorem file_system_touched_only_when_saving (w : world)
    (coluna intervalos titulo nome_arquivo : string) (salvar : bool) :
  let pasta := os_path_join (getcwd w) "images" in
  let caminho := os_path_join pasta nome_arquivo in
  let r := composicao_histograma_boxplot w coluna intervalos titulo
             nome_arquivo salvar in
  (forall p, In (Makedirs p) (fst r) ->
     salvar = true /\ path_exists w pasta = false /\ p = pasta) /\
  (forall p, In (Savefig p) (fst r) ->
     salvar = true /\ p = caminho /\
     forall c, In (Draw c) (figura coluna intervalos titulo) ->
               plot w c = None).
Proof.
  intros pasta caminho r.
  destruct (composicao_run w coluna intervalos titulo nome_arquivo salvar)
    as [(Hs & Hex & e & Hmk & E) | (P & HP & HB)];
    fold pasta caminho r in E || fold pasta caminho r in HB.
  - rewrite E. cbn [fst]. split; intros p Hp.
    + destruct Hp as [[= <-]|[K|[]]]; [auto | discriminate K].
    + destruct Hp as [K|[K|[]]]; discriminate K.
  - pose proof (desenhos_only _ (figura_desenhos coluna intervalos titulo))
      as (F1 & F2 & F3).
    destruct HB as [(Hall & S & E & HS) | (tr & e & c & E & Htr & _)];
      rewrite E; cbn [fst]; split; intros p Hp;
      rewrite ?in_app_iff in Hp.
    + destruct Hp as [Hp|[Hp|[Hp|Hp]]].
      * destruct HP as [[-> _]|(-> & ? & ? & ?)]; [destruct Hp|].
        destruct Hp as [[= <-]|[K|[]]]; [auto | discriminate K].
      * now apply F2 in Hp.
      * destruct HS as [[_ ->]|(_ & l & ->)]; [destruct Hp|].
        destruct Hp as [K|[K|[]]]; discriminate K.
      * destruct Hp as [K|[]]; discriminate K.
    + destruct Hp as [Hp|[Hp|[Hp|Hp]]].
      * destruct HP as [[-> _]|(-> & ? & ? & ?)]; [destruct Hp|].
        destruct Hp as [K|[K|[]]]; discriminate K.
      * now apply F3 in Hp.
      * destruct HS as [[_ ->]|(Hsv & l & ->)]; [destruct Hp|].
        destruct Hp as [[= <-]|[K|[]]]; [auto | discriminate K].
      * destruct Hp as [K|[]]; discriminate K.
    + destruct (desenhos_only _ Htr) as (T1 & T2 & T3).
      destruct Hp as [Hp|Hp]; [|now apply T2 in Hp].
      destruct HP as [[-> _]|(-> & ? & ? & ?)]; [destruct Hp|].
      destruct Hp as [[= <-]|[K|[]]]; [auto | discriminate K].
    + destruct (desenhos_only _ Htr) as (T1 & T2 & T3).
      destruct Hp as [Hp|Hp]; [|now apply T3 in Hp].
      destruct HP as [[-> _]|(-> & ? & ? & ?)]; [destruct Hp|].
      destruct Hp as [K|[K|[]]]; discriminate K.
Qed.




End PlotMore.

(** ** The statistics module: further properties *)

Module StatsMore.

Import Numeric Stats StatsAux StatsFacts.
Local Open Scope Q_scope.

(** *** The report of the F test *)

(** What one call of [teste_f_variancias] writes: the output of sixteen
    calls of [print] after what the console already holds; the decision
    is written by the call before the closing rule and by no other. *)
Lemma teste_f_variancias_report f_cdf a1 a2 nome1 nome2 alpha st :
  let t := fst (calculo_f f_cdf a1 a2 st) in
  let r := teste_f_variancias f_cdf a1 a2 nome1 nome2 alpha st in
  exists antes : list line,
    stdout (snd r)
    = (stdout st ++ antes
         ++ [if rejeita (p_value_two_tailed t) alpha
             then decisao_rejeita else decisao_nao_rejeita;
             rule "="])%list /\
    List.length antes = 14%nat /\
    ~ In decisao_rejeita antes /\ ~ In decisao_nao_rejeita antes.
Proof.
  intros t r. subst r. unfold teste_f_variancias.
  do 4 print_step.
  rewrite bind_run, calculo_f_state.
  match goal with
  | |- context [calculo_f f_cdf a1 a2 ?s] =>
      rewrite (calculo_f_reads_mem f_cdf a1 a2 st s eq_refl)
  end.
  fold t. cbv beta. do 10 print_step.
  exists [rule "=";
          Text (" TESTE F PARA IGUALDADE DE VARIÂNCIAS (" ++ nome1 ++ " vs. "
                ++ nome2 ++ ") ");
          rule "=";
          Text (nl ++ "    H0: As variâncias de " ++ nome1 ++ " e " ++ nome2
                ++ " são iguais." ++ nl
                ++ "    H1: As variâncias de " ++ nome1 ++ " e " ++ nome2
                ++ " são diferentes." ++ nl ++ "    ");
          rule "="; Text " RESULTADOS DO TESTE F "; rule "=";
          Variancia_de nome1 (var1 t); Variancia_de nome2 (var2 t);
          Estatistica_F (F t); Graus_de_liberdade (df1 t) (df2 t);
          rule "-"; P_valor_bicaudal (p_value_two_tailed t); rule "-"]%string.
  split; [|split; [reflexivity|]].
  - destruct (rejeita _ _); do 2 print_step; unfold ret; cbn [snd stdout];
      rewrite <- !app_assoc; reflexivity.
  - split; intros K; cbn in K;
      repeat (destruct K as [K|K]; [discriminate K|]); exact K.
Qed.

Lemma rejeita_spec (p : option R) (alpha : Q) :
  rejeita p alpha = true <-> exists x, p = Some x /\ (x < Q2R alpha)%R.
Proof.
  unfold rejeita. destruct p as [x|].
  - destruct (Rlt_dec x (Q2R alpha)) as [H|H]; split.
    + intros _. now exists x.
    + reflexivity.
    + discriminate.
    + intros (y & [= <-] & K). contradiction.
  - split; [discriminate | intros (x & K & _); discriminate K].
Qed.

(** The output one call writes, and where the decision stands in it. *)
Lemma teste_f_variancias_decision f_cdf a1 a2 nome1 nome2 alpha st :
  let r := teste_f_variancias f_cdf a1 a2 nome1 nome2 alpha st in
  exists linhas : list line,
    stdout (snd r) = (stdout st ++ linhas)%list /\
    List.length linhas = 16%nat /\
    (In decisao_rejeita linhas <->
     exists p, fst r = Some p /\ (p < Q2R alpha)%R) /\
    (In decisao_nao_rejeita linhas <->
     ~ exists p, fst r = Some p /\ (p < Q2R alpha)%R).
Proof.
  intros r.
  destruct (teste_f_variancias_report f_cdf a1 a2 nome1 nome2 alpha st)
    as (antes & E & Hlen & N1 & N2).
  destruct (teste_f_variancias_run f_cdf a1 a2 nome1 nome2 alpha st)
    as (Hr & _).
  fold r in E, Hr. rewrite Hr.
  set (p := p_value_two_tailed (fst (calculo_f f_cdf a1 a2 st))) in *.
  pose proof (rejeita_spec p alpha) as Hspec.
  eexists. split; [exact E|]. split.
  { rewrite length_app, Hlen. reflexivity. }
  rewrite !in_app_iff.
  destruct (rejeita p alpha); split; split.
  - intros _. now apply Hspec.
  - intros _. right. now left.
  - intros [K|[K|[K|[]]]]; [contradiction | discriminate K | discriminate K].
  - intros K. exfalso. apply K. now apply Hspec.
  - intros [K|[K|[K|[]]]]; [contradiction | discriminate K | discriminate K].
  - intros K. apply Hspec in K. discriminate K.
  - intros _ K. apply Hspec in K. discriminate K.
  - intros _. right. now left.
Qed.

Lemma var_short (a : list Q) : (List.length a <= 1)%nat -> var 1 a = None.
Proof.
  intros H. destruct a as [|x [|y t]]; [reflexivity | | cbn in H; lia].
  unfold var. destruct (mean [x]); reflexivity.
Qed.

(** X7: a sample of fewer than two elements has no unbiased variance, and
    the test degenerates without raising: [teste_f_variancias] returns NaN
    and the report says "Não rejeitamos H0", never "Rejeitamos H0". *)
Theorem short_sample_gives_nan_and_no_rejection (f_cdf : R -> Z -> Z -> R)
    (st : state) (amostra1 amostra2 : ref) (nome1 nome2 : string)
    (alpha : Q) :
  (List.length (mem st amostra1) <= 1)%nat \/
  (List.length (mem st amostra2) <= 1)%nat ->
  let r := teste_f_variancias f_cdf amostra1 amostra2 nome1 nome2 alpha st in
  fst r = None /\
  exists linhas : list line,
    stdout (snd r) = (stdout st ++ linhas)%list /\
    In decisao_nao_rejeita linhas /\ ~ In decisao_rejeita linhas.
Proof.
  intros Hshort r.
  assert (Hnone : fst r = None).
  { destruct (teste_f_variancias_run f_cdf amostra1 amostra2 nome1 nome2
                alpha st) as (Hr & _).
    fold r in Hr. rewrite Hr.
    unfold calculo_f, bind, np_var, len, load, ret. cbn.
    destruct Hshort as [H|H]; rewrite (var_short _ H).
    - destruct (var 1 (mem st amostra2)); reflexivity.
    - destruct (var 1 (mem st amostra1)); reflexivity. }
  split; trivial.
  destruct (teste_f_variancias_decision f_cdf amostra1 amostra2 nome1 nome2
              alpha st) as (linhas & E & _ & H1 & H2).
  fold r in E, H1, H2. exists linhas. split; trivial.
  rewrite H1, H2, Hnone.
  split; intros (p & K & _); discriminate K.
Qed.

(** X7 on a sample of one element. *)
Lemma short_sample_gives_nan_and_no_rejection_witness :
  fst (teste_f_variancias cdf_racional 0%nat 1%nat "Grupo 1" "Grupo 2"
         (5 # 100) amostra_curta) = None.
Proof.
  apply (short_sample_gives_nan_and_no_rejection cdf_racional amostra_curta
           0%nat 1%nat "Grupo 1" "Grupo 2" (5 # 100)).
  left. cbn. lia.
Defined.

(** *** Descriptive statistics of a sample of one element *)

(** X9: on a sample of a single element the measures of position all
    equal that element, while the unbiased variance and the standard
    deviation are NaN (the divisor n - 1 is zero); nothing raises. *)
Theorem single_element_sample (st : state) (amostra : ref) (x : Q) :
  mem st amostra = [x] ->
  let e := fst (calcular_estatisticas amostra st) in
  (exists m, Media e = Some m /\ m == x) /\
  (exists m, Mediana e = Some m /\ m == x) /\
  Moda e = Some x /\
  (exists q, Quartil_1 e = Some q /\ q == x) /\
  (exists q, Quartil_2_Mediana e = Some q /\ q == x) /\
  (exists q, Quartil_3 e = Some q /\ q == x) /\
  Variancia e = None /\ Desvio_Padrao e = None.
Proof.
  intros Ha e. subst e. rewrite calcular_estatisticas_fields. rewrite Ha.
  cbn [Media Mediana Moda Quartil_1 Quartil_2_Mediana Quartil_3 Variancia
       Desvio_Padrao].
  assert (Hv : var 1 [x] = None) by (apply var_short; cbn; lia).
  unfold std. rewrite Hv.
  repeat split; try reflexivity.
  - rewrite mean_defined by discriminate.
    eexists. split; [reflexivity|].
    change (sumQ [x]) with (x + 0). change (lenQ [x]) with 1. field.
  - destruct (median_odd [x] 0 eq_refl) as (m & Hm & Em).
    exists m. split; [exact Hm | exact Em].
  - eexists. split; [reflexivity|]. apply lerp_same.
  - eexists. split; [reflexivity|]. apply lerp_same.
  - eexists. split; [reflexivity|]. apply lerp_same.
Qed.

(** X9 on the sample [7]. *)
Lemma single_element_sample_witness :
  Moda (fst (calcular_estatisticas 0%nat amostra_curta)) = Some 7 /\
  Variancia (fst (calcular_estatisticas 0%nat amostra_curta)) = None.
Proof.
  destruct (single_element_sample amostra_curta 0%nat 7 eq_refl)
    as (_ & _ & Hm & _ & _ & _ & Hv & _).
  split; assumption.
Defined.

End StatsMore.

(** ** The F test over the variances the library returns *)

Module TesteFFacts.

Import Numeric Stats StatsFacts.
Local Open Scope Q_scope.

(** The test of the statistics module is the instance at the exact
    variance. *)
Lemma teste_f_variancias_exact f_cdf a1 a2 nome1 nome2 alpha :
  Stats.teste_f_variancias f_cdf a1 a2 nome1 nome2 alpha
  = TesteF.teste_f_variancias (var 1) f_cdf a1 a2 nome1 nome2 alpha.
Proof. reflexivity. Qed.

Section Biblioteca.

Variable np_var_ddof1 : list Q -> option Q.
Variable f_cdf : R -> Z -> Z -> R.

Lemma calculo_f_frame a1 a2 st :
  snd (TesteF.calculo_f np_var_ddof1 f_cdf a1 a2 st) = st.
Proof.
  unfold TesteF.calculo_f, bind, TesteF.np_var, len, load, ret. cbn.
  destruct (gt _ _); reflexivity.
Qed.

Lemma calculo_f_heap a1 a2 st st' :
  mem st' = mem st ->
  fst (TesteF.calculo_f np_var_ddof1 f_cdf a1 a2 st')
  = fst (TesteF.calculo_f np_var_ddof1 f_cdf a1 a2 st).
Proof.
  intros E. unfold TesteF.calculo_f, bind, TesteF.np_var, len, load, ret. cbn.
  rewrite E. destruct (gt _ _); reflexivity.
Qed.

(** The value returned is the two-tailed p-value of the quantities of
    lines 188-201, the heap is left as it was, and the report carries the
    statistic and the degrees of freedom. *)
Lemma teste_f_variancias_result a1 a2 nome1 nome2 alpha st :
  let t := fst (TesteF.calculo_f np_var_ddof1 f_cdf a1 a2 st) in
  let r := TesteF.teste_f_variancias np_var_ddof1 f_cdf a1 a2 nome1 nome2
             alpha st in
  fst r = p_value_two_tailed t /\
  mem (snd r) = mem st /\
  In (Estatistica_F (F t)) (stdout (snd r)) /\
  In (Graus_de_liberdade (df1 t) (df2 t)) (stdout (snd r)).
Proof.
  intros t r.
  assert (H : exists out,
             r = (p_value_two_tailed t, {| mem := mem st; stdout := out |}) /\
             In (Estatistica_F (F t)) out /\
             In (Graus_de_liberdade (df1 t) (df2 t)) out).
  { subst r. unfold TesteF.teste_f_variancias.
    do 4 print_step.
    rewrite bind_run, calculo_f_frame.
    match goal with
    | |- context [TesteF.calculo_f _ _ a1 a2 ?s] =>
        rewrite (calculo_f_heap a1 a2 st s eq_refl)
    end.
    fold t.
    cbv beta. do 10 print_step.
    destruct (rejeita _ _); do 2 print_step; unfold ret;
      (eexists; split; [reflexivity|]).
    all: split; in_snoc. }
  destruct H as (out & E & H1 & H2).
  rewrite E. cbn [fst snd mem stdout]. auto.
Qed.

Variables (st : state) (amostra1 amostra2 : ref).
Variables v1 v2 : Q.

(** The library returns the finite positive numbers [v1] and [v2] as the
    variances of the two samples. *)
Hypothesis Hvar1 : np_var_ddof1 (mem st amostra1) = Some v1.
Hypothesis Hvar2 : np_var_ddof1 (mem st amostra2) = Some v2.
Hypothesis Hpos1 : 0 < v1.
Hypothesis Hpos2 : 0 < v2.

(** Lines 188-201 on two finite positive variances. *)
Lemma calculo_f_finite :
  let t := fst (TesteF.calculo_f np_var_ddof1 f_cdf amostra1 amostra2 st) in
  let n1 := Z.of_nat (List.length (mem st amostra1)) in
  let n2 := Z.of_nat (List.length (mem st amostra2)) in
  var1 t = Some v1 /\ var2 t = Some v2 /\
  p_value_one_tailed t
  = option_map (fun x => (1 - f_cdf (Q2R x) (df1 t) (df2 t))%R) (F t) /\
  p_value_two_tailed t
  = option_map (fun p => (2 * Rmin p (1 - p))%R) (p_value_one_tailed t) /\
  ((v2 < v1 /\ F t = Some (v1 / v2) /\
    df1 t = (n1 - 1)%Z /\ df2 t = (n2 - 1)%Z) \/
   (v1 <= v2 /\ F t = Some (v2 / v1) /\
    df1 t = (n2 - 1)%Z /\ df2 t = (n1 - 1)%Z)).
Proof.
  unfold TesteF.calculo_f, bind, TesteF.np_var, len, load, ret. cbn.
  rewrite Hvar1, Hvar2. unfold gt, quociente.
  destruct (Qle_bool v1 v2) eqn:E; cbn.
  - rewrite (div_pos v2 v1 Hpos1).
    apply Qle_bool_iff in E. repeat split; auto 6.
  - rewrite (div_pos v1 v2 Hpos2).
    apply Qle_bool_false in E. repeat split; auto 6.
Qed.

(** C3 (amended): on two samples whose variances, as the library returns
    them, are finite positive numbers, [teste_f_variancias] computes F as
    the larger variance over the smaller one, takes the degrees of freedom
    in the same order (df1 is n - 1 of the sample with the larger
    variance, df2 that of the other), and F is at least 1.  These are the
    values the report prints.  Whatever the variance routine computes is
    covered, as long as its two results are finite: the statement fails
    only when a variance overflows to infinity, where F is NaN. *)
Theorem C3_F_is_larger_over_smaller (nome1 nome2 : string) (alpha : Q) :
  let t := fst (TesteF.calculo_f np_var_ddof1 f_cdf amostra1 amostra2 st) in
  let r := TesteF.teste_f_variancias np_var_ddof1 f_cdf amostra1 amostra2
             nome1 nome2 alpha st in
  let n1 := Z.of_nat (List.length (mem st amostra1)) in
  let n2 := Z.of_nat (List.length (mem st amostra2)) in
  exists f : Q,
    F t = Some f /\
    f == Qmax v1 v2 / Qmin v1 v2 /\
    1 <= f /\
    (v2 < v1 -> df1 t = (n1 - 1)%Z /\ df2 t = (n2 - 1)%Z) /\
    (v1 < v2 -> df1 t = (n2 - 1)%Z /\ df2 t = (n1 - 1)%Z) /\
    In (Estatistica_F (Some f)) (stdout (snd r)) /\
    In (Graus_de_liberdade (df1 t) (df2 t)) (stdout (snd r)).
Proof.
  intros t r n1 n2.
  destruct (teste_f_variancias_result amostra1 amostra2 nome1 nome2 alpha st)
    as (_ & _ & HF & Hdf).
  destruct calculo_f_finite as (_ & _ & _ & _ & K).
  fold t in K, HF, Hdf. fold r in HF, Hdf. fold n1 n2 in K.
  destruct K as [(Hlt & Hf & Hd1 & Hd2) | (Hle & Hf & Hd1 & Hd2)].
  - exists (v1 / v2). rewrite Hf in HF.
    split; [exact Hf|]. split; [|split; [|split; [|split]]]; auto.
    + rewrite (Q.max_l v1 v2), (Q.min_r v1 v2) by now apply Qlt_le_weak.
      reflexivity.
    + apply Qle_shift_div_l; trivial. rewrite Qmult_1_l.
      now apply Qlt_le_weak.
    + intros Hc. exfalso. apply (Qlt_irrefl v1).
      now apply Qlt_trans with v2.
  - exists (v2 / v1). rewrite Hf in HF.
    split; [exact Hf|]. split; [|split; [|split; [|split]]]; auto.
    + rewrite (Q.max_r v1 v2), (Q.min_l v1 v2) by trivial. reflexivity.
    + apply Qle_shift_div_l; trivial. now rewrite Qmult_1_l.
    + intros Hc. exfalso. apply (Qlt_irrefl v1).
      now apply Qle_lt_trans with v2.
Qed.

(** The value returned on two finite positive variances. *)
Lemma teste_f_variancias_finite (nome1 nome2 : string) (alpha : Q) :
  let t := fst (TesteF.calculo_f np_var_ddof1 f_cdf amostra1 amostra2 st) in
  exists f : Q,
    F t = Some f /\
    p_value_one_tailed t = Some (1 - f_cdf (Q2R f) (df1 t) (df2 t))%R /\
    fst (TesteF.teste_f_variancias np_var_ddof1 f_cdf amostra1 amostra2
           nome1 nome2 alpha st)
    = option_map (fun p => (2 * Rmin p (1 - p))%R) (p_value_one_tailed t).
Proof.
  intros t.
  destruct (teste_f_variancias_result amostra1 amostra2 nome1 nome2 alpha st)
    as (Hr & _).
  destruct calculo_f_finite as (_ & _ & H1 & H2 & K).
  fold t in K, H1, H2, Hr. rewrite Hr, H2, H1.
  destruct K as [(_ & Hf & _) | (_ & Hf & _)]; rewrite Hf; cbn;
    eexists; repeat split.
Qed.

(** Both samples have at least two elements. *)
Hypothesis Hlen1 : (2 <= List.length (mem st amostra1))%nat.
Hypothesis Hlen2 : (2 <= List.length (mem st amostra2))%nat.

(** At positive degrees of freedom the distribution function takes its
    values in [0, 1]. *)
Hypothesis f_cdf_range :
  forall x d1 d2, (0 < d1)%Z -> (0 < d2)%Z -> (0 <= f_cdf x d1 d2 <= 1)%R.

(** C10 (amended): on two samples of at least two elements whose
    variances, as the library returns them, are finite positive numbers,
    the value returned by [teste_f_variancias] is a number of the closed
    interval [0, 1].  The statement fails only when a variance overflows
    to infinity, where the value returned is NaN. *)
Theorem C10_p_value_in_unit_interval (nome1 nome2 : string) (alpha : Q) :
  exists p : R,
    fst (TesteF.teste_f_variancias np_var_ddof1 f_cdf amostra1 amostra2
           nome1 nome2 alpha st)
    = Some p /\ (0 <= p <= 1)%R.
Proof.
  destruct (teste_f_variancias_finite nome1 nome2 alpha) as (f & _ & Hp & Hr).
  rewrite Hr, Hp. cbn [option_map]. eexists. split; [reflexivity|].
  apply Rmin_half.
  destruct calculo_f_finite as (_ & _ & _ & _ & K). cbv zeta in K.
  match goal with |- context [f_cdf ?x ?a ?b] =>
    assert (0 <= f_cdf x a b <= 1)%R
      by (apply f_cdf_range;
          destruct K as [(_ & _ & E1 & E2) | (_ & _ & E1 & E2)];
          rewrite ?E1, ?E2; lia)
  end.
  lra.
Qed.

End Biblioteca.

(** C3 on the samples [1, 2, 3] and [2, 0, 0, 0], with the exact variance
    as the variance routine. *)
Lemma C3_F_is_larger_over_smaller_witness :
  exists f : Q,
    F (fst (TesteF.calculo_f (var 1) cdf_racional 0%nat 1%nat exemplo))
    = Some f /\ 1 <= f.
Proof.
  destruct (C3_F_is_larger_over_smaller (var 1) cdf_racional exemplo
              0%nat 1%nat
              (1458 # 1458) (196608 # 196608) eq_refl eq_refl eq_refl eq_refl
              "Grupo 1" "Grupo 2" (5 # 100))
    as (f & Hf & _ & H1 & _).
  exists f. split; assumption.
Defined.

(** C10 on the samples [1, 2, 3] and [2, 0, 0, 0], with the exact variance
    as the variance routine. *)
Lemma C10_p_value_in_unit_interval_witness :
  exists p : R,
    fst (TesteF.teste_f_variancias (var 1) cdf_racional 0%nat 1%nat
           "Grupo 1" "Grupo 2" (5 # 100) exemplo)
    = Some p /\ (0 <= p <= 1)%R.
Proof.
  apply (C10_p_value_in_unit_interval (var 1) cdf_racional exemplo
           0%nat 1%nat
           (1458 # 1458) (196608 # 196608) eq_refl eq_refl eq_refl eq_refl).
  - simpl. lia.
  - simpl. lia.
  - exact cdf_racional_range.
Defined.

(** X8: two samples of the same size whose variances, as the library
    returns them, are the same finite positive number (a sample compared
    with itself among them) give the p-value 1: F is 1 with equal degrees
    of freedom, where the F distribution function is 1/2 by its reciprocal
    symmetry. *)
Theorem equal_variances_and_sizes_give_p_one
    (np_var_ddof1 : list Q -> option Q) (f_cdf : R -> Z -> Z -> R)
    (st : state) (amostra1 amostra2 : ref) (v1 v2 : Q)
    (nome1 nome2 : string) (alpha : Q) :
  (forall x a b, (0 < x)%R -> (0 < a)%Z -> (0 < b)%Z ->
     f_cdf (/ x)%R b a = (1 - f_cdf x a b)%R) ->
  np_var_ddof1 (mem st amostra1) = Some v1 ->
  np_var_ddof1 (mem st amostra2) = Some v2 ->
  0 < v1 -> v1 == v2 ->
  (2 <= List.length (mem st amostra1))%nat ->
  List.length (mem st amostra1) = List.length (mem st amostra2) ->
  fst (TesteF.teste_f_variancias np_var_ddof1 f_cdf amostra1 amostra2
         nome1 nome2 alpha st)
  = Some 1%R.
Proof.
  intros Hrec Hv1 Hv2 Hp1 E Hlen Hsame.
  assert (Hp2 : 0 < v2) by now rewrite <- E.
  destruct (teste_f_variancias_result np_var_ddof1 f_cdf amostra1 amostra2
              nome1 nome2 alpha st) as (Hr & _).
  rewrite Hr.
  destruct (calculo_f_finite np_var_ddof1 f_cdf st amostra1 amostra2 v1 v2
              Hv1 Hv2 Hp1 Hp2) as (_ & _ & A1 & A2 & A).
  cbv zeta in A. rewrite A2, A1.
  assert (Hone : forall a b : Q, 0 < b -> a == b -> Q2R (a / b) = 1%R).
  { intros a b Hb Hab. rewrite Hab, Q2R_div.
    - apply Qlt_Rlt in Hb. rewrite RMicromega.Q2R_0 in Hb. field. lra.
    - intros K. rewrite K in Hb. now apply Qlt_irrefl in Hb. }
  set (d := (Z.of_nat (List.length (mem st amostra1)) - 1)%Z) in *.
  assert (Hd : (0 < d)%Z) by (unfold d; lia).
  assert (Hhalf : f_cdf 1%R d d = (1 / 2)%R).
  { pose proof (Hrec 1%R d d Rlt_0_1 Hd Hd) as K.
    rewrite Rinv_1 in K. lra. }
  assert (Hmin : (2 * Rmin (1 - 1 / 2) (1 - (1 - 1 / 2)) = 1)%R).
  { unfold Rmin. destruct (Rle_dec _ _); lra. }
  destruct A as [(Hlt & HF & Hd1 & Hd2) | (Hle & HF & Hd1 & Hd2)];
    rewrite HF, Hd1, Hd2; cbn [option_map]; rewrite <- ?Hsame; fold d.
  - exfalso. rewrite E in Hlt. now apply Qlt_irrefl in Hlt.
  - rewrite (Hone v2 v1 Hp1) by now symmetry.
    rewrite Hhalf. now rewrite Hmin.
Qed.

(** X8 on a sample compared with itself, with the exact variance as the
    variance routine. *)
Lemma equal_variances_and_sizes_give_p_one_witness :
  fst (TesteF.teste_f_variancias (var 1) cdf_racional 0%nat 0%nat
         "Grupo 1" "Grupo 1" (5 # 100) exemplo) = Some 1%R.
Proof.
  apply (equal_variances_and_sizes_give_p_one (var 1) cdf_racional exemplo
           0%nat 0%nat (1458 # 1458) (1458 # 1458)
           "Grupo 1" "Grupo 1" (5 # 100) cdf_racional_reciprocal);
    try reflexivity.
  cbn. lia.
Defined.

End TesteFFacts.

(** ** The numeric routines on IEEE doubles *)

Module Float64Facts.

Import PrimFloat Float64.
Local Open Scope float_scope.
#[local] Set Warnings "-inexact-float".

(** *** Where doubles leave exact arithmetic *)


(** C3 (counterexample): the samples [1e200, -1e200] and [2e200, -2e200]
    have two elements each and positive variances, both of which overflow
    to infinity; F is infinity over infinity, which is NaN, and [1 <= F]
    does not hold. *)
Lemma C3_counterexample_overflow :
  let t := calculo_f cdf_dupla [1e200; -1e200] [2e200; -2e200] in
  var1 t = infinity /\ var2 t = infinity /\
  (0 <? var1 t) = true /\ (0 <? var2 t) = true /\
  is_nan (F t) = true /\ (1 <=? F t) = false.
Proof. repeat split; vm_compute; reflexivity. Qed.

(** C10 (counterexample): on the same two samples the value
    [teste_f_variancias] returns is NaN, which is not in [0, 1].  The
    distribution function is called at F = NaN, where it returns NaN. *)
Lemma C10_counterexample_overflow :
  let a1 := [1e200; -1e200] in
  let a2 := [2e200; -2e200] in
  let p := teste_f_variancias cdf_dupla a1 a2 in
  (0 <? np_var a1 1) = true /\ (0 <? np_var a2 1) = true /\
  is_nan (F (calculo_f cdf_dupla a1 a2)) = true /\
  is_nan p = true /\ ((0 <=? p) && (p <=? 1)) = false.
Proof. repeat split; vm_compute; reflexivity. Qed.

(** *** Reference values *)

(** On samples of small integers the routines on doubles return the exact
    values: the sample of the docstring has median 12 and first quartile
    10, and the samples [1, 2, 3] and [2, 0, 0, 0] have variance 1, so
    that F is 1. *)
Example docstring_sample_on_doubles :
  exists e : estatisticas,
    calcular_estatisticas [10; 12; 14; 10; 18; 20; 10] = Some e /\
    Mediana e = 12 /\ Quartil_1 e = 10 /\ Quartil_2_Mediana e = 12 /\
    Quartil_3 e = 16.
Proof.
  eexists. split; [vm_compute; reflexivity|].
  repeat split; vm_compute; reflexivity.
Qed.

Example equal_variances_on_doubles :
  let t := calculo_f cdf_dupla [1; 2; 3] [2; 0; 0; 0] in
  var1 t = 1 /\ var2 t = 1 /\ F t = 1 /\ df1 t = 3%Z /\ df2 t = 2%Z.
Proof. repeat split; vm_compute; reflexivity. Qed.

(** Rounding, underflow and overflow in the descriptive statistics: the
    mean of three equal values can exceed them and their variance be
    positive; the variance of two distinct values can be zero; the
    quartiles of a sample of very large spread can be infinite and out of
    order. *)
Example mean_of_equal_values :
  np_mean [0.1; 0.1; 0.1] = 0.10000000000000002 /\
  (0.1 <? np_mean [0.1; 0.1; 0.1]) = true /\
  (0 <? np_var [0.1; 0.1; 0.1] 1) = true.
Proof. repeat split; vm_compute; reflexivity. Qed.

Example variance_underflow : np_var [1e-200; 2e-200] 1 = 0.
Proof. vm_compute; reflexivity. Qed.

Example quartiles_overflow :
  np_percentile [-1.5e308; 1.5e308] 25 = Some infinity /\
  np_percentile [-1.5e308; 1.5e308] 50 = Some neg_infinity /\
  np_percentile [-1.5e308; 1.5e308] 75 = Some neg_infinity /\
  np_median [-1.5e308; 1.5e308] = 0.
Proof. repeat split; vm_compute; reflexivity. Qed.

(** The median can overflow where the second quartile does not: the sum
    of the two middle elements is formed before it is halved. *)
Example median_overflow :
  np_median [1.5e308; 1.5e308] = infinity /\
  np_percentile [1.5e308; 1.5e308] 50 = Some 1.5e308.
Proof. repeat split; vm_compute; reflexivity. Qed.

End Float64Facts.
